(** * Lost & Found backend: the item-reporting pipeline of [server.js]

    A shallow embedding of the Express application defined in
    [src/server.js] (first document, the deployed version): the layer
    stack built by [app.use] / [app.post] / [app.get] / [app.delete], the
    three item handlers, the upload middleware and the trailing error
    handler.  The document store, the upload directory and the console are
    explicit state; the clock, the identifier generator and the
    availability of the database and of the disk are inputs of each
    request.

    The second document of [src/server.js] is an earlier variant of the
    same server (image links hard-wired to [http://localhost:5000], other
    message texts, the DELETE route registered after the error handler);
    the embedding follows the first.

    What Express, Multer, Mongoose and Node do is not part of the
    repository; it is modelled here as far as the handlers depend on it:
    the router's treatment of [next()] and [next(err)], the two body
    parsers, the ObjectId cast of a query on [_id], [path.extname].
    Requests use the five methods the CORS policy names, form fields are
    text, and a multipart payload has at most one file part. *)

From Stdlib Require Import ZArith Lia Ascii String.
From stdpp Require Import base option list gmap strings pretty sorting.

Local Open Scope string_scope.
Local Open Scope Z_scope.

(** ** Identifiers

    [Item.findByIdAndDelete(id)] receives the route parameter as text and
    Mongoose casts it to an ObjectId before the query is sent.  The cast
    accepts exactly the strings of 24 hexadecimal digits (upper or lower
    case); an ObjectId is modelled by the 96-bit number those digits
    spell. *)

Module ObjectId.

Definition t := N.

Definition hex_digit (c : ascii) : option N :=
  let n := N_of_ascii c in
  if ((48 <=? n) && (n <=? 57))%N then Some (n - 48)%N
  else if ((97 <=? n) && (n <=? 102))%N then Some (n - 87)%N
  else if ((65 <=? n) && (n <=? 70))%N then Some (n - 55)%N
  else None.

Fixpoint hex_value (acc : N) (s : string) : option N :=
  match s with
  | EmptyString => Some acc
  | String c s' =>
      match hex_digit c with
      | Some d => hex_value (16 * acc + d)%N s'
      | None => None
      end
  end.

(** The cast applied to a query condition on [_id]: [None] stands for
    the CastError that rejects the query. *)
Definition cast (s : string) : option t :=
  if (String.length s =? 24)%nat then hex_value 0%N s else None.

Definition isValid (s : string) : bool :=
  match cast s with Some _ => true | None => false end.

End ObjectId.

(** ** Data model: [itemSchema] *)

Record Item := mkItem {
  _id : ObjectId.t;
  item_name : option string;
  description : option string;
  location : option string;
  contact_number : option string;
  type : option string;            (* 'lost' or 'found' *)
  image_url : option string;       (* [None] is the stored [null] *)
  reported_at : Z                  (* a Date, in milliseconds *)
}.

Global Instance Item_eq_dec : EqDecision Item.
Proof. solve_decision. Defined.

(** ** JavaScript and Node helpers used by the handlers *)

(** [a || b] on a possibly undefined string: the empty string is falsy. *)
Definition js_or (a : option string) (b : string) : string :=
  match a with
  | Some s => if decide (s = "") then b else s
  | None => b
  end.

(** Template-literal rendering of an integral Number. *)
Definition number_to_string (n : Z) : string := pretty n.

(** [path.extname] (POSIX flavour): a backward scan for the last dot of
    the last path component.  [ext_scan] is the loop body, with the index
    [i] running from [length - 1] down to [0]; leaving the scan early is
    the [break] of the loop. *)
Record ExtScan := mkExtScan {
  startDot : Z;
  startPart : Z;
  end_ : Z;
  matchedSlash : bool;
  preDotState : Z
}.

Definition ext_init : ExtScan := mkExtScan (-1) 0 (-1) true 0.

Fixpoint ext_scan (rev_chars : list ascii) (i : Z) (st : ExtScan) : ExtScan :=
  match rev_chars with
  | [] => st
  | c :: cs =>
      if decide (c = "/"%char) then
        if negb (matchedSlash st)
        then mkExtScan (startDot st) (i + 1) (end_ st) (matchedSlash st) (preDotState st)
        else ext_scan cs (i - 1) st
      else
        let st1 :=
          if end_ st =? -1
          then mkExtScan (startDot st) (startPart st) (i + 1) false (preDotState st)
          else st in
        let st2 :=
          if decide (c = "."%char) then
            if startDot st1 =? -1
            then mkExtScan i (startPart st1) (end_ st1) (matchedSlash st1) (preDotState st1)
            else if negb (preDotState st1 =? 1)
            then mkExtScan (startDot st1) (startPart st1) (end_ st1) (matchedSlash st1) 1
            else st1
          else if negb (startDot st1 =? -1)
          then mkExtScan (startDot st1) (startPart st1) (end_ st1) (matchedSlash st1) (-1)
          else st1 in
        ext_scan cs (i - 1) st2
  end.

Definition extname (path : string) : string :=
  let st := ext_scan (rev (list_ascii_of_string path))
                     (Z.of_nat (String.length path) - 1) ext_init in
  if (startDot st =? -1) || (end_ st =? -1) || (preDotState st =? 0)
     || ((preDotState st =? 1) && (startDot st =? end_ st - 1)
         && (startDot st =? startPart st + 1))
  then ""
  else String.substring (Z.to_nat (startDot st))
                        (Z.to_nat (end_ st - startDot st)) path.

(** ** Requests, responses and the server's state *)

Inductive Method := GET | POST | PUT | DELETE | OPTIONS.

Global Instance Method_eq_dec : EqDecision Method.
Proof. solve_decision. Defined.

(** The request path, classified by the route patterns of the
    application; [T_api_items_id id] carries the decoded [:id] parameter
    and [T_uploads name] the path below the [/uploads] mount point. *)
Inductive Target :=
| T_root
| T_api_health
| T_api_items
| T_api_items_id (id : string)
| T_uploads (name : string)
| T_other (path : string).

Global Instance Target_eq_dec : EqDecision Target.
Proof. solve_decision. Defined.

Abbreviation Fields := (gmap string string).

Record FilePart := mkFilePart {
  fieldname : string;
  originalname : string;
  content : string
}.

(** The payload of a request as the two body parsers see it.  A JSON
    payload is represented by the verdict of [JSON.parse]: [None] when
    the text is not valid JSON, otherwise the parsed object.  A multipart
    payload has text fields and at most one file part. *)
Inductive Body :=
| NoBody
| JsonBody (parsed : option Fields)
| MultipartBody (fields : Fields) (file : option FilePart).

Record Request := mkRequest {
  method : Method;
  target : Target;
  body : Body
}.

Inductive ErrorClass :=
| SyntaxError | MulterError | SystemError | CastError | MongoError.

Global Instance ErrorClass_eq_dec : EqDecision ErrorClass.
Proof. solve_decision. Defined.

(** A thrown JavaScript error: its class, whether it has a [body]
    property, and its message (the internal detail). *)
Record JsError := mkJsError {
  err_class : ErrorClass;
  err_has_body : bool;
  err_message : string
}.

Inductive Payload :=
| P_saved (message : string) (item : Item)   (* { message, item } *)
| P_items (found : list Item)                 (* [ item, ... ] *)
| P_message (message : string)                (* { message } *)
| P_error (error : string)                    (* { error } *)
| P_status (status_text : string)             (* { status } *)
| P_text (text : string)
| P_file (bytes : string)
| P_empty
| P_cannot (m : Method) (t : Target)          (* the default 404 page *)
| P_unhandled (e : JsError).                  (* the default error page *)

Record Response := mkResponse {
  status : nat;
  payload : Payload
}.

(** [res.json(x)] without a preceding [res.status] answers 200. *)
Definition res_json (p : Payload) : Response := mkResponse 200 p.
Definition res_status_json (code : nat) (p : Payload) : Response := mkResponse code p.

(** The state the server acts on: the [items] collection in insertion
    order, the upload directory (stored name to bytes) and what was
    written with [console.error]. *)
Record World := mkWorld {
  items : list Item;
  uploads : gmap string string;
  console : list (string * JsError)
}.

Definition empty_world : World := mkWorld [] ∅ [].

Definition set_items (s : list Item) (w : World) : World :=
  mkWorld s (uploads w) (console w).
Definition put_upload (name bytes : string) (w : World) : World :=
  mkWorld (items w) (<[name := bytes]> (uploads w)) (console w).
Definition console_error (label : string) (e : JsError) (w : World) : World :=
  mkWorld (items w) (uploads w) (console w ++ [(label, e)])%list.

(** [process.env]. *)
Record Config := mkConfig {
  RENDER_EXTERNAL_URL : option string
}.

(** What a request reads from outside the program: the two readings of
    [Date.now()] (in the upload's [filename] callback and in the schema
    default of [reported_at]), the ObjectId generated for a new document,
    and whether a database operation or a disk write fails, with the
    internal detail of the failure. *)
Record Env := mkEnv {
  now_upload : Z;
  now_item : Z;
  fresh_id : ObjectId.t;
  db_failure : option string;
  disk_failure : option string
}.

(** The request object as the middlewares extend it. *)
Record Ctx := mkCtx {
  request : Request;
  req_body : Fields;               (* req.body *)
  req_file : option string         (* req.file.filename *)
}.

Inductive Outcome :=
| Next (c : Ctx)                   (* next() *)
| NextErr (e : JsError)            (* next(err), or a throw *)
| End (r : Response).              (* the response was sent *)

Definition Middleware := Config → Env → Ctx → World → Outcome * World.

(** A route handler whose body is one [try { ... } catch (err) { ... }]
    with a response sent on both paths: it always ends the request. *)
Definition Handler := Config → Env → Ctx → World → Response * World.

Definition responding (h : Handler) : Middleware := fun cfg env ctx w =>
  let '(resp, w') := h cfg env ctx w in (End resp, w').

(** ** The persistence service behind the [Item] model

    The three Mongoose calls of the handlers, on the collection as a list
    in insertion order.  Each call rejects with the database's error when
    the database is failing. *)

Definition db_call {A} (env : Env) (result : A) : JsError + A :=
  match db_failure env with
  | Some detail => inl (mkJsError MongoError false detail)
  | None => inr result
  end.

(** [new Item({...})]: the schema assigns [_id] and the default of
    [reported_at] when the document is constructed. *)
Definition new_Item (env : Env)
    (item_name description location contact_number type image_url : option string)
    : Item :=
  mkItem (fresh_id env) item_name description location contact_number type
         image_url (now_item env).

(** [doc.save()] *)
Definition save (env : Env) (doc : Item) (coll : list Item) : JsError + list Item :=
  db_call env (coll ++ [doc])%list.

(** [.sort({ reported_at: -1 })]: insertion sort, descending on
    [reported_at]; documents with equal keys keep their stored order. *)
Fixpoint insert_desc (x : Item) (l : list Item) : list Item :=
  match l with
  | [] => [x]
  | y :: l' =>
      if reported_at y <=? reported_at x then x :: y :: l'
      else y :: insert_desc x l'
  end.

Fixpoint sort_desc (l : list Item) : list Item :=
  match l with
  | [] => []
  | x :: l' => insert_desc x (sort_desc l')
  end.

(** [Item.find().sort({ reported_at: -1 })] *)
Definition find_sorted (env : Env) (coll : list Item) : JsError + list Item :=
  db_call env (sort_desc coll).

(** Deleting the first document whose [_id] is [oid]. *)
Fixpoint delete_one (oid : ObjectId.t) (coll : list Item) : list Item :=
  match coll with
  | [] => []
  | x :: l => if decide (_id x = oid) then l else x :: delete_one oid l
  end.

(** [Item.findByIdAndDelete(id)]: the condition is cast first, and a
    value that is not an ObjectId rejects the query with a CastError. *)
Definition findByIdAndDelete (env : Env) (id : string) (coll : list Item)
    : JsError + list Item :=
  match ObjectId.cast id with
  | None => inl (mkJsError CastError false
                   ("Cast to ObjectId failed for value " ++ id))
  | Some oid => db_call env (delete_one oid coll)
  end.

(** ** Middlewares *)

(** [express.json({ limit: "10mb" })]: a JSON payload is parsed into
    [req.body]; a payload that does not parse raises the parser's
    SyntaxError, which carries the offending [body]. *)
Definition express_json : Middleware := fun cfg env ctx w =>
  match body (request ctx) with
  | JsonBody (Some obj) => (Next (mkCtx (request ctx) obj (req_file ctx)), w)
  | JsonBody None =>
      (NextErr (mkJsError SyntaxError true "Unexpected token in JSON"), w)
  | _ => (Next ctx, w)
  end.

(** [cors({...})]: a preflight request is answered at once with 204;
    any other request only gets headers. *)
Definition cors : Middleware := fun cfg env ctx w =>
  match method (request ctx) with
  | OPTIONS => (End (mkResponse 204 P_empty), w)
  | _ => (Next ctx, w)
  end.

(** The manual CORS middleware sets four headers and calls [next()]. *)
Definition cors_headers : Middleware := fun cfg env ctx w => (Next ctx, w).

(** [express.static(uploadDir)] below [/uploads]. *)
Definition serve_static (name : string) : Middleware := fun cfg env ctx w =>
  match method (request ctx) with
  | GET =>
      match uploads w !! name with
      | Some bytes => (End (mkResponse 200 (P_file bytes)), w)
      | None => (Next ctx, w)
      end
  | _ => (Next ctx, w)
  end.

(** The [filename] callback of [multer.diskStorage]. *)
Definition uniqueName (env : Env) (file : FilePart) : string :=
  number_to_string (now_upload env) ++ extname (originalname file).

(** [upload.single(field)]: only multipart requests are handled.  The
    text fields become [req.body]; a file part in [field] is written to
    the upload directory under its generated name and becomes
    [req.file]; a file part in another field is refused.  A failed write
    passes the error on and leaves no file behind. *)
Definition upload_single (field : string) : Middleware := fun cfg env ctx w =>
  match body (request ctx) with
  | MultipartBody fields None => (Next (mkCtx (request ctx) fields None), w)
  | MultipartBody fields (Some file) =>
      if decide (fieldname file = field) then
        match disk_failure env with
        | Some detail => (NextErr (mkJsError SystemError false detail), w)
        | None =>
            let filename := uniqueName env file in
            (Next (mkCtx (request ctx) fields (Some filename)),
             put_upload filename (content file) w)
        end
      else (NextErr (mkJsError MulterError false "Unexpected field"), w)
  | _ => (Next ctx, w)
  end.

Definition default_base_url : string := "https://lost-found-backend-lrjz.onrender.com".

(** POST: Report an item *)
Definition post_items : Handler := fun cfg env ctx w =>
  let item_name := req_body ctx !! "item_name" in
  let description := req_body ctx !! "description" in
  let location := req_body ctx !! "location" in
  let contact_number := req_body ctx !! "contact_number" in
  let type := req_body ctx !! "type" in
  let baseUrl := js_or (RENDER_EXTERNAL_URL cfg) default_base_url in
  let imageUrl :=
    match req_file ctx with
    | Some filename => Some (baseUrl ++ "/uploads/" ++ filename)
    | None => None
    end in
  let newItem :=
    new_Item env item_name description location contact_number type imageUrl in
  match save env newItem (items w) with
  | inr coll =>
      ((res_status_json 201 (P_saved "✅ Item saved successfully" newItem)),
       set_items coll w)
  | inl err =>
      ((res_status_json 500 (P_error "Failed to save item")),
       console_error "❌ Error saving item:" err w)
  end.

(** GET: Fetch all items *)
Definition get_items : Handler := fun cfg env ctx w =>
  match find_sorted env (items w) with
  | inr found => ((res_json (P_items found)), w)
  | inl err =>
      ((res_status_json 500 (P_error "Failed to fetch items")),
       console_error "❌ Error fetching items:" err w)
  end.

(** DELETE: Remove an item by ID *)
Definition delete_item (id : string) : Handler := fun cfg env ctx w =>
  match findByIdAndDelete env id (items w) with
  | inr coll =>
      ((res_json (P_message "🗑️ Item deleted successfully")), set_items coll w)
  | inl err =>
      ((res_status_json 500 (P_error "Failed to delete item")),
       console_error "❌ Error deleting item:" err w)
  end.

(** Health check routes *)
Definition health : Handler := fun cfg env ctx w =>
  ((res_json (P_status "ok")), w).
Definition root : Handler := fun cfg env ctx w =>
  ((mkResponse 200 (P_text "🚀 Lost & Found API is running successfully!")), w).

(** Error handler for invalid JSON.  For any other error it calls
    [next()] without the error. *)
Definition json_error_handler (err : JsError) : Middleware := fun cfg env ctx w =>
  if bool_decide (err_class err = SyntaxError) && err_has_body err
  then (End (mkResponse 400 (P_error "Invalid JSON format")), w)
  else (Next ctx, w).

(** ** The Express router *)

Inductive Layer :=
| Use (mw : Middleware)                                   (* app.use(fn) *)
| Mount (below : Target → option Middleware)              (* app.use(path, fn) *)
| Route (m : Method) (path : Target → option (list Middleware))
| UseError (handler : JsError → Middleware).              (* app.use of a 4-argument fn *)

(** A route on a fixed path. *)
Definition on (t : Target) (handlers : list Middleware) : Target → option (list Middleware) :=
  fun t' => if decide (t' = t) then Some handlers else None.

(** The handlers of a matched route run in order; [next(err)] leaves the
    route, [next()] after the last handler falls through to the layers
    that follow. *)
Fixpoint run_handlers (hs : list Middleware)
    (cfg : Config) (env : Env) (ctx : Ctx) (w : World) : Outcome * World :=
  match hs with
  | [] => (Next ctx, w)
  | h :: hs' =>
      match h cfg env ctx w with
      | (Next ctx', w') => run_handlers hs' cfg env ctx' w'
      | stop => stop
      end
  end.

(** What Express answers when the stack is exhausted: 404 when no error
    is pending, the error page otherwise. *)
Definition finalhandler (err : option JsError) (ctx : Ctx) : Response :=
  match err with
  | None => mkResponse 404 (P_cannot (method (request ctx)) (target (request ctx)))
  | Some e => mkResponse 500 (P_unhandled e)
  end.

(** [dispatch stack err]: while an error is pending only error handlers
    run; otherwise only plain middlewares and matching routes. *)
Fixpoint dispatch (stack : list Layer) (err : option JsError)
    (cfg : Config) (env : Env) (ctx : Ctx) (w : World) : Response * World :=
  match stack with
  | [] => (finalhandler err ctx, w)
  | layer :: rest =>
      let continue (r : Outcome * World) :=
        match r with
        | (Next ctx', w') => dispatch rest None cfg env ctx' w'
        | (NextErr e, w') => dispatch rest (Some e) cfg env ctx w'
        | (End resp, w') => (resp, w')
        end in
      let skip := dispatch rest err cfg env ctx w in
      match err, layer with
      | None, Use mw => continue (mw cfg env ctx w)
      | None, Mount below =>
          match below (target (request ctx)) with
          | Some mw => continue (mw cfg env ctx w)
          | None => skip
          end
      | None, Route m path =>
          if decide (method (request ctx) = m) then
            match path (target (request ctx)) with
            | Some hs => continue (run_handlers hs cfg env ctx w)
            | None => skip
            end
          else skip
      | Some e, UseError handler => continue (handler e cfg env ctx w)
      | _, _ => skip
      end
  end.

(** The application, layer by layer in the order of [server.js]. *)
Definition stack : list Layer :=
  [ Use express_json;
    Use cors;
    Use cors_headers;
    Mount (fun t => match t with T_uploads name => Some (serve_static name) | _ => None end);
    Route POST (on T_api_items [upload_single "image"; responding post_items]);
    Route GET (on T_api_items [responding get_items]);
    Route DELETE (fun t => match t with
                           | T_api_items_id id => Some [responding (delete_item id)]
                           | _ => None
                           end);
    Route GET (on T_api_health [responding health]);
    Route GET (on T_root [responding root]);
    UseError json_error_handler ].

(** One request served by the application.  [req.body] starts as the
    empty object that [express.json] leaves when it has nothing to
    parse, and [req.file] is undefined. *)
Definition app (cfg : Config) (env : Env) (w : World) (r : Request) : Response * World :=
  dispatch stack None cfg env (mkCtx r ∅ None) w.

(** Requests served one after the other by the single process. *)
Fixpoint serve (cfg : Config) (trace : list (Env * Request)) (w : World)
    : list Response * World :=
  match trace with
  | [] => ([], w)
  | (env, r) :: trace' =>
      let '(resp, w') := app cfg env w r in
      let '(resps, w'') := serve cfg trace' w' in
      (resp :: resps, w'')
  end.

(** * Vocabulary of the properties *)

(** ** Payloads and what the parsers make of them *)

(** The payload passes [express.json]. *)
Definition body_parses (b : Body) : bool :=
  match b with JsonBody None => false | _ => true end.

(** The payload has a file part. *)
Definition carries_file (b : Body) : bool :=
  match b with MultipartBody _ (Some _) => true | _ => false end.

(** [req.body] after [express.json] alone, and after the upload
    middleware of the POST route as well. *)
Definition json_fields (b : Body) : Fields :=
  match b with
  | JsonBody (Some obj) => obj
  | _ => ∅
  end.

Definition fields_of (b : Body) : Fields :=
  match b with
  | MultipartBody fields _ => fields
  | _ => json_fields b
  end.

(** The upload middleware lets the request through: there is no file
    part, or the part is in the [image] field and the disk accepts it. *)
Definition upload_passes (env : Env) (b : Body) : bool :=
  match b with
  | MultipartBody _ (Some file) =>
      bool_decide (fieldname file = "image") && bool_decide (disk_failure env = None)
  | _ => true
  end.

(** The stored name and the bytes of the uploaded file, if any. *)
Definition uploaded (env : Env) (b : Body) : option (string * string) :=
  match b with
  | MultipartBody _ (Some file) => Some (uniqueName env file, content file)
  | _ => None
  end.

Definition post_ctx (env : Env) (b : Body) : Ctx :=
  mkCtx (mkRequest POST T_api_items b) (fields_of b) (fst <$> uploaded env b).

Definition post_world (env : Env) (b : Body) (w : World) : World :=
  match uploaded env b with
  | Some (name, bytes) => put_upload name bytes w
  | None => w
  end.

(** ** Orders on the collection *)

(** Newest first: every document is at least as recent as all the
    documents after it. *)
Definition newest_first (l : list Item) : Prop :=
  StronglySorted (fun x y => reported_at y ≤ reported_at x) l.

(** Insertion order with strictly increasing report times. *)
Definition strictly_older_first (l : list Item) : Prop :=
  StronglySorted (fun x y => reported_at x < reported_at y) l.

Definition older_first (coll : list Item) : Prop :=
  StronglySorted (fun x y => reported_at x ≤ reported_at y) coll.

Definition not_after (t : Z) (coll : list Item) : Prop :=
  Forall (fun x => reported_at x ≤ t) coll.

(** Of two stored items, the one inserted first has the smaller or equal
    [reported_at]. *)
Definition insertion_ordered (coll : list Item) : Prop :=
  ∀ i j x y, (i ≤ j)%nat → coll !! i = Some x → coll !! j = Some y →
             reported_at x ≤ reported_at y.

(** The readings of the clock taken for [reported_at], request by
    request. *)
Definition clock_readings (trace : list (Env * Request)) : list Z :=
  map (fun step => now_item step.1) trace.

(** ** Identifiers in the collection, responses, messages *)

Definition ids (coll : list Item) : list ObjectId.t := map _id coll.

(** The id names no stored item: it is malformed, or no document has
    the ObjectId it denotes. *)
Definition names_no_item (id : string) (coll : list Item) : Prop :=
  ∀ oid, ObjectId.cast id = Some oid → oid ∉ ids coll.

(** The confirmation sent after a deletion. *)
Definition deleted_confirmation : Response :=
  mkResponse 200 (P_message "🗑️ Item deleted successfully").

(** A success-shaped response: status 200 with a [{ message }] body. *)
Definition success_shaped (r : Response) : bool :=
  match payload r with
  | P_message _ => bool_decide (status r = 200%nat)
  | _ => false
  end.

Definition saved_message : string := "✅ Item saved successfully".

(** The base URL of image links: the configured one, else the default. *)
Definition baseUrl (cfg : Config) : string :=
  js_or (RENDER_EXTERNAL_URL cfg) default_base_url.

(** A create, list or delete request that gets as far as its handler:
    its payload parses and, for a create, the upload middleware lets it
    through. *)
Definition item_request (env : Env) (r : Request) : bool :=
  body_parses (body r) &&
  match method r, target r with
  | POST, T_api_items => upload_passes env (body r)
  | GET, T_api_items => true
  | DELETE, T_api_items_id _ => true
  | _, _ => false
  end.

(** The fixed message of each of the three handlers' [catch] branch. *)
Definition failure_message (r : Request) : string :=
  match method r with
  | POST => "Failed to save item"
  | GET => "Failed to fetch items"
  | _ => "Failed to delete item"
  end.

(** ** The fields of a stored report *)

(** The five names destructured from [req.body]. *)
Definition named_fields : list string :=
  ["item_name"; "description"; "location"; "contact_number"; "type"].

(** The same payload with other form fields. *)
Definition with_fields (f : Fields) (b : Body) : Body :=
  match b with
  | JsonBody (Some _) => JsonBody (Some f)
  | MultipartBody _ file => MultipartBody f file
  | _ => b
  end.

(** The record a report creates: the generated identifier, the five
    named fields of the form, the computed image link and the default
    report time. *)
Definition created_item (cfg : Config) (env : Env) (b : Body) : Item :=
  let f := fields_of b in
  mkItem (fresh_id env)
         (f !! "item_name") (f !! "description") (f !! "location")
         (f !! "contact_number") (f !! "type")
         ((fun stored => baseUrl cfg ++ "/uploads/" ++ stored.1) <$> uploaded env b)
         (now_item env).

(** ** A worked scenario: three reports, then listing and deleting *)

Module Sample.

(** [RENDER_EXTERNAL_URL] is not set. *)
Definition cfg : Config := mkConfig None.

Definition id_A : string := "65f1c0de0000000000000001".
Definition id_B : string := "65f1c0de0000000000000002".
Definition id_C : string := "65f1c0de0000000000000003".
Definition id_D : string := "65f1c0de0000000000000004".

Definition oid (s : string) : ObjectId.t := default 0%N (ObjectId.cast s).

(** The database and the disk work; the clock reads [t]. *)
Definition env (t : Z) (id : string) : Env := mkEnv t t (oid id) None None.

Definition env_disk_full : Env :=
  mkEnv 4 4 (oid id_D) None (Some "ENOSPC: no space left on device, write").

Definition env_db_down : Env :=
  mkEnv 4 4 (oid id_D) (Some "MongoNetworkError: connect ECONNREFUSED 10.0.0.7:27017") None.

Definition form (name : string) : Fields :=
  <["item_name" := name]> (<["type" := "lost"]> ∅).

Definition report (name : string) : Request :=
  mkRequest POST T_api_items (MultipartBody (form name) None).

Definition photo : FilePart := mkFilePart "image" "wallet.front.JPG" "<jpeg bytes>".

Definition report_with_photo : Request :=
  mkRequest POST T_api_items (MultipartBody (form "Wallet") (Some photo)).

Definition list_all : Request := mkRequest GET T_api_items NoBody.

Definition delete (id : string) : Request :=
  mkRequest DELETE (T_api_items_id id) NoBody.

Definition item (id name : string) (t : Z) : Item :=
  mkItem (oid id) (Some name) None None None (Some "lost") None t.

Definition item_A : Item := item id_A "A" 1.
Definition item_B : Item := item id_B "B" 2.
Definition item_C : Item := item id_C "C" 3.

(** A (t=1), B (t=2), C (t=3), reported in that order. *)
Definition trace_abc : list (Env * Request) :=
  [(env 1 id_A, report "A"); (env 2 id_B, report "B"); (env 3 id_C, report "C")].

Definition w_abc : World := (serve cfg trace_abc empty_world).2.

End Sample.

(** * The earlier variant of the server

    The second document of [src/server.js]: the same application before
    it was deployed.  Image links are hard-wired to
    [http://localhost:5000], there is no manual CORS middleware and no
    [/api/health] route, some texts differ, and the DELETE route is
    registered after the error handler.  The GET handler and the upload
    middleware are the same code. *)

Module Earlier.

Definition local_base_url : string := "http://localhost:5000".

(** POST: Report an item *)
Definition post_items : Handler := fun cfg env ctx w =>
  let item_name := req_body ctx !! "item_name" in
  let description := req_body ctx !! "description" in
  let location := req_body ctx !! "location" in
  let contact_number := req_body ctx !! "contact_number" in
  let type := req_body ctx !! "type" in
  let imageUrl :=
    match req_file ctx with
    | Some filename => Some (local_base_url ++ "/uploads/" ++ filename)
    | None => None
    end in
  let newItem :=
    new_Item env item_name description location contact_number type imageUrl in
  match save env newItem (items w) with
  | inr coll =>
      ((res_status_json 201 (P_saved "✅ Item saved successfully" newItem)),
       set_items coll w)
  | inl err =>
      ((res_status_json 500 (P_error "Failed to save item")),
       console_error "❌ Error saving item:" err w)
  end.

(** Root route (for health check) *)
Definition root : Handler := fun cfg env ctx w =>
  ((mkResponse 200 (P_text "🚀 Lost & Found API is running")), w).

(** Error handler for invalid JSON *)
Definition json_error_handler (err : JsError) : Middleware := fun cfg env ctx w =>
  if bool_decide (err_class err = SyntaxError) && err_has_body err
  then (End (mkResponse 400 (P_error "Invalid JSON")), w)
  else (Next ctx, w).

(** DELETE route: Remove an item by ID *)
Definition delete_item (id : string) : Handler := fun cfg env ctx w =>
  match findByIdAndDelete env id (items w) with
  | inr coll =>
      ((res_json (P_message "Item deleted successfully")), set_items coll w)
  | inl err =>
      ((res_status_json 500 (P_error "Failed to delete item")),
       console_error "Error deleting item:" err w)
  end.

(** The layers in the order of the second document. *)
Definition stack : list Layer :=
  [ Use express_json;
    Use cors;
    Mount (fun t => match t with T_uploads name => Some (serve_static name) | _ => None end);
    Route POST (on T_api_items [upload_single "image"; responding post_items]);
    Route GET (on T_api_items [responding get_items]);
    Route GET (on T_root [responding root]);
    UseError json_error_handler;
    Route DELETE (fun t => match t with
                           | T_api_items_id id => Some [responding (delete_item id)]
                           | _ => None
                           end) ].

Definition app (cfg : Config) (env : Env) (w : World) (r : Request) : Response * World :=
  dispatch stack None cfg env (mkCtx r ∅ None) w.

End Earlier.

(** * Vocabulary of the further properties *)


(** A report that is stored: the payload parses, the upload middleware
    lets it through and the database answers. *)
Definition accepted_report (step : Env * Request) : Prop :=
  method step.2 = POST ∧ target step.2 = T_api_items
  ∧ body_parses (body step.2) = true
  ∧ upload_passes step.1 (body step.2) = true
  ∧ db_failure step.1 = None.

(** An item without its image link. *)
Definition without_image_url (x : Item) : Item :=
  mkItem (_id x) (item_name x) (description x) (location x) (contact_number x)
         (type x) None (reported_at x).

(** The request for the file stored under [name]. *)
Definition get_upload (name : string) (b : Body) : Request :=
  mkRequest GET (T_uploads name) b.

(** A report with a file part. *)
Definition post_with_file (fields : Fields) (file : FilePart) : Request :=
  mkRequest POST T_api_items (MultipartBody fields (Some file)).

(** What the deployed stack does with a request, route by route. *)
Definition route_table (cfg : Config) (env : Env) (w : World) (r : Request)
    : Response * World :=
  let not_found := (mkResponse 404 (P_cannot (method r) (target r)), w) in
  let ctx := mkCtx r (json_fields (body r)) None in
  if body_parses (body r) then
    match method r, target r with
    | OPTIONS, _ => (mkResponse 204 P_empty, w)
    | GET, T_uploads name =>
        match uploads w !! name with
        | Some bytes => (mkResponse 200 (P_file bytes), w)
        | None => not_found
        end
    | POST, T_api_items =>
        if upload_passes env (body r)
        then post_items cfg env (post_ctx env (body r)) (post_world env (body r) w)
        else not_found
    | GET, T_api_items => get_items cfg env ctx w
    | DELETE, T_api_items_id id => delete_item id cfg env ctx w
    | GET, T_api_health => health cfg env ctx w
    | GET, T_root => root cfg env ctx w
    | _, _ => not_found
    end
  else (mkResponse 400 (P_error "Invalid JSON format"), w).

Module Scenario.

Definition photo2 : FilePart := mkFilePart "image" "keys.JPG" "<other jpeg bytes>".

Definition report_with_photo2 : Request :=
  mkRequest POST T_api_items (MultipartBody (Sample.form "Keys") (Some photo2)).

(** A second request in the same millisecond. *)
Definition env_same_instant : Env :=
  mkEnv 4 4 (Sample.oid "65f1c0de0000000000000005") None None.


End Scenario.

(** * Properties *)

(** ** The helpers on concrete inputs *)

Example number_to_string_ms : number_to_string 1700000000123 = "1700000000123".
Proof. vm_compute. reflexivity. Qed.

Example extname_html : extname "index.html" = ".html".
Proof. reflexivity. Qed.
Example extname_two_dots : extname "index.coffee.md" = ".md".
Proof. reflexivity. Qed.
Example extname_trailing_dot : extname "index." = ".".
Proof. reflexivity. Qed.
Example extname_none : extname "index" = "".
Proof. reflexivity. Qed.
Example extname_dotfile : extname ".index" = "".
Proof. reflexivity. Qed.
Example extname_dotfile_md : extname ".index.md" = ".md".
Proof. reflexivity. Qed.
Example extname_dir_dot : extname "photos.d/cat" = "".
Proof. reflexivity. Qed.
Example extname_dotdot : extname ".." = "".
Proof. reflexivity. Qed.

(** ** Sorting *)

Lemma insert_desc_perm x l : insert_desc x l ≡ₚ x :: l.
Proof.
  induction l as [|y l IH]; simpl; [done|].
  destruct (reported_at y <=? reported_at x); [done|].
  rewrite IH. apply Permutation_swap.
Qed.

Lemma sort_desc_perm l : sort_desc l ≡ₚ l.
Proof.
  induction l as [|x l IH]; simpl; [done|].
  by rewrite insert_desc_perm, IH.
Qed.

Lemma insert_desc_sorted x l : newest_first l → newest_first (insert_desc x l).
Proof.
  unfold newest_first. induction 1 as [|y l Hl IH Hy]; simpl.
  - repeat constructor.
  - destruct (Z.leb_spec (reported_at y) (reported_at x)) as [Hle|Hlt].
    + constructor; [by constructor|].
      constructor; [done|].
      eapply Forall_impl; [exact Hy|]. simpl. intros z Hz. lia.
    + constructor; [done|].
      rewrite insert_desc_perm. constructor; [lia|done].
Qed.

Lemma sort_desc_sorted l : newest_first (sort_desc l).
Proof.
  induction l as [|x l IH]; simpl; [constructor|].
  by apply insert_desc_sorted.
Qed.

Lemma insert_desc_oldest x l :
  Forall (fun y => reported_at x < reported_at y) l → insert_desc x l = (l ++ [x])%list.
Proof.
  induction 1 as [|y l Hy _ IH]; simpl; [done|].
  destruct (Z.leb_spec (reported_at y) (reported_at x)); [lia|].
  by rewrite IH.
Qed.

Lemma sort_desc_reverse l : strictly_older_first l → sort_desc l = reverse l.
Proof.
  unfold strictly_older_first. induction 1 as [|x l _ IH Hx]; simpl; [done|].
  rewrite IH, reverse_cons. apply insert_desc_oldest.
  by apply Forall_reverse.
Qed.

(** ** How the router reaches the three item handlers *)

Lemma app_get_items cfg env w b :
  body_parses b = true →
  app cfg env w (mkRequest GET T_api_items b)
  = get_items cfg env (mkCtx (mkRequest GET T_api_items b) (json_fields b) None) w.
Proof.
  intros Hb. destruct b as [|[obj|]|fields file]; try discriminate Hb;
    unfold app; simpl; unfold responding;
    by destruct (get_items _ _ _ _).
Qed.

Lemma app_delete_item cfg env w id b :
  body_parses b = true →
  app cfg env w (mkRequest DELETE (T_api_items_id id) b)
  = delete_item id cfg env
      (mkCtx (mkRequest DELETE (T_api_items_id id) b) (json_fields b) None) w.
Proof.
  intros Hb. destruct b as [|[obj|]|fields file]; try discriminate Hb;
    unfold app; simpl; unfold responding;
    by destruct (delete_item _ _ _ _ _).
Qed.

(** POST /api/items through the whole stack: a payload that is not JSON
    is answered by the error handler; an error passed on by the upload
    middleware reaches the same handler, which drops it, and the
    exhausted stack answers 404; otherwise the route handler runs. *)
Lemma app_post_items cfg env w b :
  app cfg env w (mkRequest POST T_api_items b)
  = if body_parses b then
      if upload_passes env b
      then post_items cfg env (post_ctx env b) (post_world env b w)
      else (mkResponse 404 (P_cannot POST T_api_items), w)
    else (mkResponse 400 (P_error "Invalid JSON format"), w).
Proof.
  destruct b as [|[obj|]|fields [file|]]; unfold app; simpl;
    unfold responding, upload_single; simpl;
    try done; try by destruct (post_items _ _ _ _).
  destruct (decide (fieldname file = "image")) as [Hn|Hn].
  - rewrite (bool_decide_eq_true_2 _ Hn).
    destruct (disk_failure env) as [d|]; simpl; [done|].
    change (post_world env (MultipartBody fields (Some file)) w)
      with (put_upload (uniqueName env file) (content file) w).
    by destruct (post_items _ _ _ _).
  - by rewrite (bool_decide_eq_false_2 _ Hn).
Qed.

Lemma app_malformed_json cfg env w m t :
  app cfg env w (mkRequest m t (JsonBody None))
  = (mkResponse 400 (P_error "Invalid JSON format"), w).
Proof. unfold app. by destruct m, t. Qed.


(** An error never reaches the default error page: the only error
    handler is the last layer, and it either answers or drops the
    error. *)
Lemma no_error_page cfg env w r e : (app cfg env w r).1 ≠ mkResponse 500 (P_unhandled e).
Proof.
  destruct r as [m t b]. destruct (body_parses b) eqn:Hb.
  2: { destruct b as [|[?|]|? ?]; try discriminate Hb.
       by rewrite app_malformed_json. }
  destruct m, t;
    try (destruct b as [|[?|]|? ?]; try discriminate Hb; unfold app; simpl; done).
  - rewrite app_get_items by done.
    unfold get_items. by destruct (find_sorted env (items w)).
  - destruct b as [|[?|]|? ?]; try discriminate Hb;
      unfold app; simpl; unfold serve_static;
      by destruct (uploads w !! name).
  - rewrite app_post_items, Hb.
    destruct (upload_passes env b); [|done].
    unfold post_items. by destruct (save env _ _).
  - rewrite app_delete_item by done.
    unfold delete_item. by destruct (findByIdAndDelete env id (items w)).
Qed.

(** ** Listing *)

(** C1. GET /api/items, when the payload parses and the database
    answers, responds 200 with the stored items and nothing else
    (a permutation of the collection), ordered by [reported_at]
    descending; the state is left as it was.  When the collection holds
    items inserted with strictly increasing report times, the listing is
    the collection in reverse insertion order. *)
Theorem list_all_newest_first cfg env w b :
  body_parses b = true →
  db_failure env = None →
  ∃ found,
    app cfg env w (mkRequest GET T_api_items b) = (mkResponse 200 (P_items found), w)
    ∧ found ≡ₚ items w
    ∧ newest_first found
    ∧ (strictly_older_first (items w) → found = reverse (items w)).
Proof.
  intros Hb Hdb. exists (sort_desc (items w)).
  rewrite app_get_items by done.
  unfold get_items, find_sorted, db_call. rewrite Hdb.
  split; [done|]. split; [apply sort_desc_perm|].
  split; [apply sort_desc_sorted|apply sort_desc_reverse].
Qed.

(** ** Deleting *)

Lemma delete_one_absent oid coll : oid ∉ ids coll → delete_one oid coll = coll.
Proof.
  unfold ids. induction coll as [|x l IH]; simpl; [done|].
  rewrite not_elem_of_cons. intros [Hx Hl].
  rewrite decide_False by done. by rewrite IH.
Qed.

Lemma delete_one_present oid coll :
  oid ∈ ids coll →
  ∃ l1 x l2, coll = (l1 ++ (x :: l2))%list ∧ _id x = oid ∧ (oid ∉ ids l1)
             ∧ delete_one oid coll = (l1 ++ l2)%list.
Proof.
  unfold ids. induction coll as [|y l IH]; simpl; [by intros ?%elem_of_nil|].
  intros Hin. destruct (decide (_id y = oid)) as [Hy|Hy].
  - exists [], y, l. simpl. split_and!; try done. apply not_elem_of_nil.
  - apply elem_of_cons in Hin as [Hin|Hin]; [done|].
    destruct (IH Hin) as (l1 & x & l2 & -> & Hx & Hl1 & Hdel).
    exists (y :: l1), x, l2. simpl. rewrite Hdel, not_elem_of_cons. done.
Qed.

Lemma delete_one_others oid oid' coll :
  oid' ≠ oid →
  filter (fun x => _id x = oid') (delete_one oid coll)
  = filter (fun x => _id x = oid') coll.
Proof.
  intros Hne. induction coll as [|x l IH]; simpl; [done|].
  destruct (decide (_id x = oid)) as [Hx|Hx].
  - rewrite filter_cons_False; [done|]. congruence.
  - rewrite !filter_cons, IH. done.
Qed.

Lemma delete_one_unique oid coll : NoDup (ids coll) → oid ∉ ids (delete_one oid coll).
Proof.
  unfold ids. induction coll as [|x l IH]; simpl; [intros _; apply not_elem_of_nil|].
  rewrite NoDup_cons. intros [Hx Hl].
  destruct (decide (_id x = oid)) as [<-|Hne]; [done|].
  simpl. rewrite not_elem_of_cons. split; [done|by apply IH].
Qed.

Lemma findByIdAndDelete_cases env id coll :
  match findByIdAndDelete env id coll with
  | inr coll' => ∃ oid, ObjectId.cast id = Some oid ∧ db_failure env = None
                        ∧ coll' = delete_one oid coll
  | inl err => ObjectId.cast id = None ∨ is_Some (db_failure env)
  end.
Proof.
  unfold findByIdAndDelete, db_call.
  destruct (ObjectId.cast id) as [oid|]; [|by left].
  destruct (db_failure env) as [d|]; [right; by eexists|].
  by exists oid.
Qed.

(** The world after DELETE /api/items/:id. *)
Lemma delete_item_world id cfg env ctx w :
  let w' := (delete_item id cfg env ctx w).2 in
  uploads w' = uploads w
  ∧ (items w' = items w
     ∨ ∃ oid, ObjectId.cast id = Some oid ∧ db_failure env = None
              ∧ items w' = delete_one oid (items w)).
Proof.
  unfold delete_item. pose proof (findByIdAndDelete_cases env id (items w)) as H.
  destruct (findByIdAndDelete env id (items w)) as [err|coll']; simpl.
  - split; [done|by left].
  - destruct H as (oid & Hc & Hdb & ->). split; [done|]. right. by exists oid.
Qed.

(** C3. DELETE /api/items/:id changes the store only at that
    identifier.  The upload directory is untouched and, for every other
    identifier, the records carrying it are the same before and after.
    When the id names no stored item the collection is unchanged.  When
    the database answers and the id denotes the identifier of a stored
    item, exactly one record with that identifier (the first) is taken
    out and the rest of the collection is what it was, in the same
    order; with unique identifiers no record with that identifier
    remains. *)
Theorem delete_changes_only_that_id cfg env w id b :
  body_parses b = true →
  let w' := (app cfg env w (mkRequest DELETE (T_api_items_id id) b)).2 in
  uploads w' = uploads w
  ∧ (∀ oid', ObjectId.cast id ≠ Some oid' →
       filter (fun x => _id x = oid') (items w')
       = filter (fun x => _id x = oid') (items w))
  ∧ (names_no_item id (items w) → items w' = items w)
  ∧ (db_failure env = None →
     ∀ oid, ObjectId.cast id = Some oid → oid ∈ ids (items w) →
       (∃ l1 x l2, items w = (l1 ++ (x :: l2))%list ∧ _id x = oid ∧ (oid ∉ ids l1)
                   ∧ items w' = (l1 ++ l2)%list)
       ∧ (NoDup (ids (items w)) → oid ∉ ids (items w'))).
Proof.
  intros Hb w'. subst w'. rewrite app_delete_item by done.
  set (ctx := mkCtx _ _ _).
  destruct (delete_item_world id cfg env ctx w) as [Hup Hit].
  split; [done|]. split; [|split].
  - intros oid' Hne. destruct Hit as [->|(oid & Hc & _ & ->)]; [done|].
    apply delete_one_others. congruence.
  - intros Hno. destruct Hit as [->|(oid & Hc & _ & ->)]; [done|].
    apply delete_one_absent. by apply Hno.
  - intros Hdb oid Hc Hin.
    assert (items (delete_item id cfg env ctx w).2 = delete_one oid (items w)) as ->.
    { unfold delete_item, findByIdAndDelete, db_call. by rewrite Hc, Hdb. }
    split; [by apply delete_one_present|by apply delete_one_unique].
Qed.

Lemma set_items_same w : set_items (items w) w = w.
Proof. by destruct w. Qed.

(** C2, as the code has it.  DELETE /api/items/:id with an id that names
    no stored item always ends in a response of the handler and leaves
    the collection and the upload directory as they were.  With the
    database answering: a well-formed id that is not found gets the
    confirmation of a successful deletion (the response a deletion gets
    on any store) and the state is unchanged; a malformed id makes the
    identifier cast fail, the error is caught and the answer is 500 with
    the payload [{ error: "Failed to delete item" }]. *)
Theorem delete_absent_or_malformed cfg env w id b :
  body_parses b = true →
  db_failure env = None →
  names_no_item id (items w) →
  ∃ resp w',
    app cfg env w (mkRequest DELETE (T_api_items_id id) b) = (resp, w')
    ∧ items w' = items w
    ∧ uploads w' = uploads w
    ∧ (ObjectId.isValid id = true →
         resp = deleted_confirmation ∧ w' = w
         ∧ ∀ w0, (app cfg env w0 (mkRequest DELETE (T_api_items_id id) b)).1 = resp)
    ∧ (ObjectId.isValid id = false →
         resp = mkResponse 500 (P_error "Failed to delete item")).
Proof.
  intros Hb Hdb Hno.
  assert (∀ w0, app cfg env w0 (mkRequest DELETE (T_api_items_id id) b)
                = match ObjectId.cast id with
                  | Some oid => (deleted_confirmation, set_items (delete_one oid (items w0)) w0)
                  | None =>
                      (mkResponse 500 (P_error "Failed to delete item"),
                       console_error "❌ Error deleting item:"
                         (mkJsError CastError false
                            ("Cast to ObjectId failed for value " ++ id)) w0)
                  end) as Happ.
  { intros w0. rewrite app_delete_item by done.
    unfold delete_item, findByIdAndDelete, db_call. rewrite Hdb.
    by destruct (ObjectId.cast id). }
  rewrite Happ. unfold ObjectId.isValid, names_no_item in *.
  destruct (ObjectId.cast id) as [oid|] eqn:Hc.
  - rewrite delete_one_absent by auto. rewrite set_items_same.
    eexists _, _. split_and!; try done.
    intros _. split_and!; try done. intros w0. by rewrite Happ.
  - eexists _, _. split_and!; done.
Qed.

(** ** Reporting *)

(** C4. POST /api/items without a file part, with a payload that parses
    and the database answering: the answer is 201 with the created item,
    whose identifier is the generated one and whose [image_url] is
    absent; that item is appended to the collection and nothing else
    changes. *)
Theorem report_without_image cfg env w b :
  body_parses b = true →
  carries_file b = false →
  db_failure env = None →
  ∃ item,
    app cfg env w (mkRequest POST T_api_items b)
    = (mkResponse 201 (P_saved saved_message item), set_items (items w ++ [item]) w)
    ∧ image_url item = None
    ∧ _id item = fresh_id env.
Proof.
  intros Hb Hf Hdb. rewrite app_post_items, Hb.
  assert (upload_passes env b = true) as -> by (by destruct b as [|?|? [?|]]).
  assert (uploaded env b = None) as Hup by (by destruct b as [|?|? [?|]]).
  unfold post_items, post_world, post_ctx, save, db_call. rewrite Hup, Hdb. simpl.
  eexists. split; [reflexivity|]. done.
Qed.

(** C5. POST /api/items with a file in the [image] field that the disk
    accepts: the file is stored under the upload-time reading of the
    clock followed by the extension of its original name; when the
    database answers, the created item's [image_url] is the base URL,
    then [/uploads/], then that stored name. *)
Theorem report_with_image cfg env w fields file :
  fieldname file = "image" →
  disk_failure env = None →
  let stored := number_to_string (now_upload env) ++ extname (originalname file) in
  let '(resp, w') :=
    app cfg env w (mkRequest POST T_api_items (MultipartBody fields (Some file))) in
  uploads w' = <[stored := content file]> (uploads w)
  ∧ (db_failure env = None →
     ∃ item,
       resp = mkResponse 201 (P_saved saved_message item)
       ∧ items w' = (items w ++ [item])%list
       ∧ image_url item = Some (baseUrl cfg ++ "/uploads/" ++ stored)).
Proof.
  intros Hn Hd stored. rewrite app_post_items. simpl.
  rewrite (bool_decide_eq_true_2 _ Hn), (bool_decide_eq_true_2 _ Hd). simpl.
  unfold post_items, post_world, post_ctx, save, db_call. simpl.
  destruct (db_failure env) as [d|]; simpl.
  - split; [done|]. intros [=].
  - split; [done|]. intros _. eexists. split_and!; reflexivity.
Qed.

(** ** Failures *)

(** C7. When the database fails during a create, list or delete
    request, the answer is 500 with the handler's fixed message,
    whatever the detail of the failure; the collection is unchanged. *)
Theorem persistence_failure_is_generic cfg env w r detail :
  db_failure env = Some detail →
  item_request env r = true →
  (app cfg env w r).1 = mkResponse 500 (P_error (failure_message r))
  ∧ items (app cfg env w r).2 = items w.
Proof.
  intros Hdb Hreq. destruct r as [m t b].
  unfold item_request in Hreq. simpl in Hreq.
  apply andb_prop in Hreq as [Hb Hr].
  destruct m, t; try discriminate Hr.
  - rewrite app_get_items by done.
    unfold get_items, find_sorted, db_call. by rewrite Hdb.
  - rewrite app_post_items, Hb, Hr.
    unfold post_items, save, db_call. rewrite Hdb. simpl.
    unfold post_world. by destruct (uploaded env b) as [[??]|].
  - rewrite app_delete_item by done.
    unfold delete_item, findByIdAndDelete, db_call. rewrite Hdb.
    by destruct (ObjectId.cast id).
Qed.

(** C8. A request whose JSON payload does not parse is answered 400
    with the payload [{ error: "Invalid JSON format" }], whatever its
    method and path, and the state is unchanged. *)
Theorem malformed_json_is_400 cfg env w m t :
  app cfg env w (mkRequest m t (JsonBody None))
  = (mkResponse 400 (P_error "Invalid JSON format"), w).
Proof. apply app_malformed_json. Qed.

(** ** Report times under sequential service *)

(** The effect of one request on the collection: none, one document
    appended whose [reported_at] is the request's reading of the clock,
    or one document deleted. *)
Lemma app_items cfg env w r :
  let w' := (app cfg env w r).2 in
  items w' = items w
  ∨ (∃ item, reported_at item = now_item env ∧ items w' = (items w ++ [item])%list)
  ∨ (∃ oid, items w' = delete_one oid (items w)).
Proof.
  destruct r as [m t b]. simpl.
  destruct (body_parses b) eqn:Hb.
  2: { destruct b as [|[?|]|? ?]; try discriminate Hb.
       rewrite app_malformed_json. by left. }
  destruct m, t;
    try (left; destruct b as [|[?|]|? ?]; try discriminate Hb;
         unfold app; simpl; done).
  - rewrite app_get_items by done. left.
    unfold get_items. by destruct (find_sorted env (items w)).
  - left. destruct b as [|[?|]|? ?]; try discriminate Hb;
      unfold app; simpl; unfold serve_static;
      by destruct (uploads w !! name).
  - rewrite app_post_items, Hb.
    destruct (upload_passes env b); [|by left].
    unfold post_items, save, db_call.
    assert (items (post_world env b w) = items w) as Hw.
    { unfold post_world. by destruct (uploaded env b) as [[??]|]. }
    destruct (db_failure env); simpl; [by left|].
    right; left. eexists. rewrite Hw. split; [|reflexivity]. done.
  - rewrite app_delete_item by done.
    destruct (delete_item_world id cfg env
                (mkCtx (mkRequest DELETE (T_api_items_id id) b) (json_fields b) None) w)
      as [_ [H|(oid & _ & _ & H)]]; [by left|].
    right; right. by exists oid.
Qed.

Lemma serve_cons_world cfg env r trace w :
  (serve cfg ((env, r) :: trace) w).2 = (serve cfg trace (app cfg env w r).2).2.
Proof.
  simpl. destruct (app cfg env w r) as [resp w1]. simpl.
  by destruct (serve cfg trace w1).
Qed.

Lemma delete_one_Forall (P : Item → Prop) oid coll :
  Forall P coll → Forall P (delete_one oid coll).
Proof.
  induction 1 as [|x l Hx Hl IH]; simpl; [done|].
  destruct (decide (_id x = oid)); [done|by constructor].
Qed.

Lemma delete_one_older_first oid coll :
  older_first coll → older_first (delete_one oid coll).
Proof.
  unfold older_first. induction 1 as [|x l Hl IH Hx]; simpl; [constructor|].
  destruct (decide (_id x = oid)); [done|].
  constructor; [done|by apply delete_one_Forall].
Qed.

Lemma older_first_snoc coll item :
  older_first coll → not_after (reported_at item) coll → older_first (coll ++ [item]).
Proof.
  unfold older_first, not_after. intros Hs Hb.
  apply StronglySorted_app_2; [|done|repeat constructor].
  intros x1 x2 H1 ->%list_elem_of_singleton.
  by eapply Forall_forall in Hb.
Qed.

Lemma older_first_lookup coll : older_first coll → insertion_ordered coll.
Proof.
  unfold older_first, insertion_ordered.
  induction 1 as [|a l Hl IH Ha]; intros i j x y Hij Hi Hj.
  - by rewrite lookup_nil in Hi.
  - destruct i as [|i], j as [|j]; simpl in *; try lia.
    + injection Hi as <-. injection Hj as <-. lia.
    + injection Hi as <-. eapply Forall_forall in Ha; [exact Ha|].
      by eapply list_elem_of_lookup_2.
    + eapply (IH i j); [lia|done..].
Qed.

(** The invariant of sequential service: the collection is ordered by
    report time and nothing stored is later than the clock. *)
Lemma serve_older_first cfg trace :
  ∀ w t0,
    older_first (items w) → not_after t0 (items w) →
    StronglySorted Z.le (t0 :: clock_readings trace) →
    older_first (items (serve cfg trace w).2).
Proof.
  induction trace as [|[env r] trace IH]; intros w t0 Hs Hb Hclock; [done|].
  rewrite serve_cons_world.
  simpl in Hclock.
  apply StronglySorted_cons in Hclock as [Ht0 Hclock].
  apply Forall_cons in Ht0 as [Ht0 _].
  assert (not_after (now_item env) (items w)) as Hb'.
  { eapply Forall_impl; [exact Hb|]. simpl. intros x Hx. lia. }
  apply (IH _ (now_item env)); [| |done].
  - destruct (app_items cfg env w r) as [->|[(item & Ht & ->)|(oid & ->)]].
    + done.
    + apply older_first_snoc; [done|by rewrite Ht].
    + by apply delete_one_older_first.
  - destruct (app_items cfg env w r) as [->|[(item & Ht & ->)|(oid & ->)]].
    + done.
    + apply Forall_app. split; [done|]. constructor; [lia|constructor].
    + by apply delete_one_Forall.
Qed.

(** C9. Requests served one after the other by one process, starting
    from the empty collection, with the readings of that process's clock
    non-decreasing from one request to the next: in the resulting
    collection, of any two items the one inserted first has a
    [reported_at] less than or equal to that of the other. *)
Theorem reported_at_monotone cfg trace :
  Sorted Z.le (clock_readings trace) →
  insertion_ordered (items (serve cfg trace empty_world).2).
Proof.
  intros Hclock. apply older_first_lookup.
  apply Sorted_StronglySorted in Hclock; [|apply _].
  destruct trace as [|[env r] trace]; [constructor|].
  apply (serve_older_first cfg _ _ (now_item env)); [constructor|constructor|].
  simpl in *. constructor; [done|].
  constructor; [lia|]. by apply StronglySorted_cons in Hclock as [? _].
Qed.

(** ** The fields of a stored report *)

Lemma post_items_fields cfg env w ctx1 ctx2 :
  req_file ctx1 = req_file ctx2 →
  (∀ k, k ∈ named_fields → req_body ctx1 !! k = req_body ctx2 !! k) →
  post_items cfg env ctx1 w = post_items cfg env ctx2 w.
Proof.
  intros Hfile Hk. unfold post_items.
  rewrite Hfile.
  rewrite !(Hk "item_name"), !(Hk "description"), !(Hk "location"),
          !(Hk "contact_number"), !(Hk "type");
    unfold named_fields; set_solver.
Qed.

(** C10. The record created by a report is made of the generated
    identifier, the five named form fields, the computed image link and
    the default report time, and it is what is appended to the
    collection.  Form fields under other names have no effect: two
    payloads that agree on the five named fields get the same response
    and leave the same state. *)
Theorem only_named_fields_stored cfg env w b :
  (body_parses b = true → upload_passes env b = true → db_failure env = None →
   app cfg env w (mkRequest POST T_api_items b)
   = (mkResponse 201 (P_saved saved_message (created_item cfg env b)),
      set_items (items w ++ [created_item cfg env b]) (post_world env b w)))
  ∧ (∀ f, (∀ k, k ∈ named_fields → f !! k = fields_of b !! k) →
       app cfg env w (mkRequest POST T_api_items (with_fields f b))
       = app cfg env w (mkRequest POST T_api_items b)).
Proof.
  split.
  - intros Hb Hu Hdb. rewrite app_post_items, Hb, Hu.
    unfold post_items, save, db_call. rewrite Hdb.
    assert (items (post_world env b w) = items w) as ->.
    { unfold post_world. by destruct (uploaded env b) as [[??]|]. }
    unfold created_item, new_Item, post_ctx. simpl.
    by destruct (uploaded env b) as [[??]|].
  - intros f Hf. rewrite !app_post_items.
    assert (body_parses (with_fields f b) = body_parses b) as ->
      by (by destruct b as [|[?|]|? ?]).
    assert (upload_passes env (with_fields f b) = upload_passes env b) as ->
      by (by destruct b as [|[?|]|? [?|]]).
    destruct (body_parses b) eqn:Hb; [|done].
    destruct (upload_passes env b); [|done].
    assert (post_world env (with_fields f b) w = post_world env b w) as ->
      by (by destruct b as [|[?|]|? [?|]]).
    apply post_items_fields.
    + by destruct b as [|[?|]|? [?|]].
    + intros k Hk. destruct b as [|[?|]|? ?]; simpl; try done; by apply Hf.
Qed.

(** ** The worked scenario *)

Example sample_collection : items Sample.w_abc = [Sample.item_A; Sample.item_B; Sample.item_C].
Proof. vm_compute. reflexivity. Qed.

(** Listing after A (t=1), B (t=2), C (t=3) returns [C, B, A]. *)
Lemma list_all_newest_first_witness :
  body_parses NoBody = true
  ∧ db_failure (Sample.env 4 Sample.id_D) = None
  ∧ ∃ found,
      app Sample.cfg (Sample.env 4 Sample.id_D) Sample.w_abc Sample.list_all
      = (mkResponse 200 (P_items found), Sample.w_abc)
      ∧ found = [Sample.item_C; Sample.item_B; Sample.item_A].
Proof.
  split; [reflexivity|]. split; [reflexivity|].
  destruct (list_all_newest_first Sample.cfg (Sample.env 4 Sample.id_D)
              Sample.w_abc NoBody eq_refl eq_refl)
    as (found & Happ & _ & _ & Hrev).
  exists found. split; [exact Happ|].
  rewrite Hrev; [vm_compute; reflexivity|].
  unfold strictly_older_first. vm_compute. repeat constructor.
Defined.

(** Deleting a well-formed identifier that is not stored. *)
Lemma delete_absent_or_malformed_witness :
  ∃ resp w',
    app Sample.cfg (Sample.env 4 Sample.id_D) Sample.w_abc (Sample.delete Sample.id_D)
    = (resp, w')
    ∧ items w' = items Sample.w_abc
    ∧ uploads w' = uploads Sample.w_abc
    ∧ (ObjectId.isValid Sample.id_D = true →
         resp = deleted_confirmation ∧ w' = Sample.w_abc
         ∧ ∀ w0, (app Sample.cfg (Sample.env 4 Sample.id_D) w0
                    (Sample.delete Sample.id_D)).1 = resp)
    ∧ (ObjectId.isValid Sample.id_D = false →
         resp = mkResponse 500 (P_error "Failed to delete item")).
Proof.
  apply (delete_absent_or_malformed Sample.cfg (Sample.env 4 Sample.id_D)
           Sample.w_abc Sample.id_D NoBody); [reflexivity|reflexivity|].
  intros oid Hcast. vm_compute in Hcast. injection Hcast as <-.
  apply (bool_decide_unpack _). vm_compute. exact I.
Defined.

(** Deleting with an id that is not an ObjectId: the handler answers
    500 with an error payload, not the confirmation. *)
Lemma delete_malformed_id_counterexample :
  ObjectId.isValid "abc" = false
  ∧ names_no_item "abc" (items Sample.w_abc)
  ∧ db_failure (Sample.env 4 Sample.id_D) = None
  ∧ (app Sample.cfg (Sample.env 4 Sample.id_D) Sample.w_abc (Sample.delete "abc")).1
    = mkResponse 500 (P_error "Failed to delete item")
  ∧ success_shaped
      (app Sample.cfg (Sample.env 4 Sample.id_D) Sample.w_abc (Sample.delete "abc")).1
    = false
  ∧ (app Sample.cfg (Sample.env 4 Sample.id_D) Sample.w_abc (Sample.delete "abc")).1
    ≠ (app Sample.cfg (Sample.env 4 Sample.id_D) Sample.w_abc (Sample.delete Sample.id_B)).1.
Proof.
  split_and!; try (vm_compute; reflexivity).
  - intros oid Hcast. vm_compute in Hcast. discriminate Hcast.
  - vm_compute. discriminate.
Qed.

(** Deleting B from [A; B; C]. *)
Lemma delete_changes_only_that_id_witness :
  body_parses NoBody = true
  ∧ let w' := (app Sample.cfg (Sample.env 4 Sample.id_D) Sample.w_abc
                 (mkRequest DELETE (T_api_items_id Sample.id_B) NoBody)).2 in
    uploads w' = uploads Sample.w_abc
    ∧ (∀ oid', ObjectId.cast Sample.id_B ≠ Some oid' →
         filter (fun x => _id x = oid') (items w')
         = filter (fun x => _id x = oid') (items Sample.w_abc))
    ∧ (names_no_item Sample.id_B (items Sample.w_abc) → items w' = items Sample.w_abc)
    ∧ (db_failure (Sample.env 4 Sample.id_D) = None →
       ∀ oid, ObjectId.cast Sample.id_B = Some oid → oid ∈ ids (items Sample.w_abc) →
         (∃ l1 x l2, items Sample.w_abc = (l1 ++ (x :: l2))%list ∧ _id x = oid
                     ∧ (oid ∉ ids l1) ∧ items w' = (l1 ++ l2)%list)
         ∧ (NoDup (ids (items Sample.w_abc)) → oid ∉ ids (items w'))).
Proof.
  split; [reflexivity|].
  apply (delete_changes_only_that_id Sample.cfg (Sample.env 4 Sample.id_D)
           Sample.w_abc Sample.id_B NoBody). reflexivity.
Defined.

Example delete_B : 
  items (app Sample.cfg (Sample.env 4 Sample.id_D) Sample.w_abc
           (Sample.delete Sample.id_B)).2
  = [Sample.item_A; Sample.item_C].
Proof. vm_compute. reflexivity. Qed.

(** A report without a file part. *)
Lemma report_without_image_witness :
  body_parses (body (Sample.report "D")) = true
  ∧ carries_file (body (Sample.report "D")) = false
  ∧ db_failure (Sample.env 4 Sample.id_D) = None
  ∧ ∃ item,
      app Sample.cfg (Sample.env 4 Sample.id_D) Sample.w_abc (Sample.report "D")
      = (mkResponse 201 (P_saved saved_message item),
         set_items (items Sample.w_abc ++ [item]) Sample.w_abc)
      ∧ image_url item = None
      ∧ _id item = fresh_id (Sample.env 4 Sample.id_D).
Proof.
  split_and!; [reflexivity..|].
  apply (report_without_image Sample.cfg (Sample.env 4 Sample.id_D) Sample.w_abc
           (MultipartBody (Sample.form "D") None)); reflexivity.
Defined.

(** A report with a photo, at clock reading 4. *)
Lemma report_with_image_witness :
  fieldname Sample.photo = "image"
  ∧ disk_failure (Sample.env 4 Sample.id_D) = None
  ∧ let stored := number_to_string (now_upload (Sample.env 4 Sample.id_D))
                  ++ extname (originalname Sample.photo) in
    let '(resp, w') :=
      app Sample.cfg (Sample.env 4 Sample.id_D) Sample.w_abc
        (mkRequest POST T_api_items
           (MultipartBody (Sample.form "Wallet") (Some Sample.photo))) in
    uploads w' = <[stored := content Sample.photo]> (uploads Sample.w_abc)
    ∧ (db_failure (Sample.env 4 Sample.id_D) = None →
       ∃ item,
         resp = mkResponse 201 (P_saved saved_message item)
         ∧ items w' = (items Sample.w_abc ++ [item])%list
         ∧ image_url item = Some (baseUrl Sample.cfg ++ "/uploads/" ++ stored)).
Proof.
  split_and!; [reflexivity..|].
  apply (report_with_image Sample.cfg (Sample.env 4 Sample.id_D) Sample.w_abc
           (Sample.form "Wallet") Sample.photo); reflexivity.
Defined.

Example report_with_photo_url :
  (app Sample.cfg (Sample.env 4 Sample.id_D) Sample.w_abc Sample.report_with_photo).1
  = mkResponse 201
      (P_saved saved_message
         (mkItem (Sample.oid Sample.id_D) (Some "Wallet") None None None (Some "lost")
                 (Some "https://lost-found-backend-lrjz.onrender.com/uploads/4.JPG") 4)).
Proof. vm_compute. reflexivity. Qed.

(** C6, on the code.  The disk is full while the photo of a report is
    written: no item is created and the state is unchanged, and the
    answer is the router's 404, because the trailing error handler calls
    [next()] without the error. *)
Theorem upload_failure_answers_404 :
  app Sample.cfg Sample.env_disk_full Sample.w_abc Sample.report_with_photo
  = (mkResponse 404 (P_cannot POST T_api_items), Sample.w_abc).
Proof. vm_compute. reflexivity. Qed.

(** The database is down during a create, a list and a delete. *)
Lemma persistence_failure_is_generic_witness :
  (app Sample.cfg Sample.env_db_down Sample.w_abc Sample.report_with_photo).1
  = mkResponse 500 (P_error "Failed to save item")
  ∧ items (app Sample.cfg Sample.env_db_down Sample.w_abc Sample.report_with_photo).2
    = items Sample.w_abc.
Proof.
  apply (persistence_failure_is_generic Sample.cfg Sample.env_db_down Sample.w_abc
           Sample.report_with_photo
           "MongoNetworkError: connect ECONNREFUSED 10.0.0.7:27017");
    reflexivity.
Defined.

Example persistence_failure_list :
  (app Sample.cfg Sample.env_db_down Sample.w_abc Sample.list_all).1
  = mkResponse 500 (P_error "Failed to fetch items").
Proof. vm_compute. reflexivity. Qed.

Example persistence_failure_delete :
  (app Sample.cfg Sample.env_db_down Sample.w_abc (Sample.delete Sample.id_B)).1
  = mkResponse 500 (P_error "Failed to delete item").
Proof. vm_compute. reflexivity. Qed.

(** Three reports at clock readings 1, 2, 3. *)
Lemma reported_at_monotone_witness :
  Sorted Z.le (clock_readings Sample.trace_abc)
  ∧ insertion_ordered (items (serve Sample.cfg Sample.trace_abc empty_world).2).
Proof.
  assert (Sorted Z.le (clock_readings Sample.trace_abc)) as Hclock.
  { unfold clock_readings. simpl. repeat constructor; discriminate. }
  split; [exact Hclock|].
  apply (reported_at_monotone Sample.cfg Sample.trace_abc Hclock).
Defined.

(** A form with an extra [color] field. *)
Lemma only_named_fields_stored_witness :
  app Sample.cfg (Sample.env 4 Sample.id_D) Sample.w_abc
    (mkRequest POST T_api_items
       (MultipartBody (<["color" := "red"]> (Sample.form "D")) None))
  = app Sample.cfg (Sample.env 4 Sample.id_D) Sample.w_abc (Sample.report "D").
Proof.
  apply (proj2 (only_named_fields_stored Sample.cfg (Sample.env 4 Sample.id_D)
                  Sample.w_abc (MultipartBody (Sample.form "D") None))
           (<["color" := "red"]> (Sample.form "D"))).
  intros k Hk. simpl. apply lookup_insert_ne.
  intros <-. vm_compute in Hk. 
  repeat (apply elem_of_cons in Hk as [Hk|Hk]; [discriminate Hk|]).
  by apply elem_of_nil in Hk.
Defined.

(** * Further properties *)

(** ** The routes of the deployed stack *)

Lemma app_route_table cfg env w r : app cfg env w r = route_table cfg env w r.
Proof.
  destruct r as [m t b]. unfold route_table. simpl.
  destruct (body_parses b) eqn:Hb.
  2: { destruct b as [|[?|]|? ?]; try discriminate Hb. apply app_malformed_json. }
  destruct m, t;
    try (destruct b as [|[?|]|? ?]; try discriminate Hb; unfold app; simpl; done).
  - by apply app_get_items.
  - destruct b as [|[?|]|? ?]; try discriminate Hb;
      unfold app; simpl; unfold serve_static;
      by destruct (uploads w !! name).
  - by rewrite app_post_items, Hb.
  - by apply app_delete_item.
Qed.

(** GET /api/health and GET / answer 200 with their fixed bodies and
    leave the state alone, whatever the database and the disk do. *)
Theorem health_ignores_failures cfg env w b :
  body_parses b = true →
  app cfg env w (mkRequest GET T_api_health b) = (mkResponse 200 (P_status "ok"), w)
  ∧ app cfg env w (mkRequest GET T_root b)
    = (mkResponse 200 (P_text "🚀 Lost & Found API is running successfully!"), w).
Proof.
  intros Hb. rewrite !app_route_table. unfold route_table. simpl. by rewrite Hb.
Qed.


(** ** Uploaded files *)

Lemma app_get_upload cfg env w name b :
  body_parses b = true →
  app cfg env w (get_upload name b)
  = match uploads w !! name with
    | Some bytes => (mkResponse 200 (P_file bytes), w)
    | None => (mkResponse 404 (P_cannot GET (T_uploads name)), w)
    end.
Proof.
  intros Hb. rewrite app_route_table. unfold route_table, get_upload. simpl.
  by rewrite Hb.
Qed.

Lemma app_post_with_file cfg env w fields file :
  fieldname file = "image" → disk_failure env = None →
  app cfg env w (post_with_file fields file)
  = post_items cfg env
      (mkCtx (post_with_file fields file) fields (Some (uniqueName env file)))
      (put_upload (uniqueName env file) (content file) w).
Proof.
  intros Hn Hd. unfold post_with_file. rewrite app_post_items. simpl.
  by rewrite (bool_decide_eq_true_2 _ Hn), (bool_decide_eq_true_2 _ Hd).
Qed.

Lemma post_items_uploads cfg env ctx w : uploads (post_items cfg env ctx w).2 = uploads w.
Proof. unfold post_items. by destruct (save env _ _). Qed.

(** Round trip of an upload: once a report with a file in the [image]
    field has been written to disk, GET /uploads/<stored name> answers
    200 with the bytes of that file, whether or not the item was
    saved. *)
Theorem uploaded_file_is_served cfg env env' w fields file b :
  fieldname file = "image" →
  disk_failure env = None →
  body_parses b = true →
  let w1 := (app cfg env w (post_with_file fields file)).2 in
  app cfg env' w1 (get_upload (uniqueName env file) b)
  = (mkResponse 200 (P_file (content file)), w1).
Proof.
  intros Hn Hd Hb w1. rewrite app_get_upload by done.
  assert (uploads w1 !! uniqueName env file = Some (content file)) as ->; [|done].
  subst w1. rewrite app_post_with_file by done.
  rewrite post_items_uploads. simpl. apply lookup_insert_eq.
Qed.

(** The upload is not undone when the save fails: a report whose file
    was written while the database is failing is answered 500 and adds
    no item, but the file stays in the upload directory. *)
Theorem failed_save_keeps_upload cfg env w fields file detail :
  fieldname file = "image" →
  disk_failure env = None →
  db_failure env = Some detail →
  let '(resp, w') := app cfg env w (post_with_file fields file) in
  resp = mkResponse 500 (P_error "Failed to save item")
  ∧ items w' = items w
  ∧ uploads w' = <[uniqueName env file := content file]> (uploads w).
Proof.
  intros Hn Hd Hdb. rewrite app_post_with_file by done.
  unfold post_items, save, db_call. by rewrite Hdb.
Qed.

(** Two uploads in the same millisecond with the same extension get the
    same stored name: the second file replaces the first on disk, and
    both items link to it. *)
Theorem same_instant_uploads_collide cfg env1 env2 w fields1 fields2 file1 file2 :
  fieldname file1 = "image" → fieldname file2 = "image" →
  disk_failure env1 = None → disk_failure env2 = None →
  db_failure env1 = None → db_failure env2 = None →
  now_upload env1 = now_upload env2 →
  extname (originalname file1) = extname (originalname file2) →
  let w1 := (app cfg env1 w (post_with_file fields1 file1)).2 in
  let w2 := (app cfg env2 w1 (post_with_file fields2 file2)).2 in
  uploads w2 = <[uniqueName env1 file1 := content file2]> (uploads w)
  ∧ ∃ item1 item2,
      items w2 = (items w ++ [item1; item2])%list
      ∧ image_url item1 = image_url item2
      ∧ image_url item1 = Some (baseUrl cfg ++ "/uploads/" ++ uniqueName env1 file1).
Proof.
  intros Hn1 Hn2 Hd1 Hd2 Hdb1 Hdb2 Hnow Hext w1 w2.
  assert (uniqueName env2 file2 = uniqueName env1 file1) as Hname.
  { unfold uniqueName. by rewrite Hnow, Hext. }
  subst w2 w1. rewrite !app_post_with_file by done.
  unfold post_items, save, db_call. rewrite Hdb1, Hdb2. simpl.
  rewrite Hname. split.
  - apply insert_insert_eq.
  - eexists _, _. rewrite <- app_assoc. simpl. split; [reflexivity|]. done.
Qed.

(** ** What a request can change *)

(** Only POST and DELETE requests change the collection, and only POST
    requests change the upload directory. *)
Theorem reads_change_nothing cfg env w r :
  let w' := (app cfg env w r).2 in
  (method r ≠ POST → uploads w' = uploads w)
  ∧ (method r ≠ POST → method r ≠ DELETE → items w' = items w).
Proof.
  simpl. rewrite app_route_table. unfold route_table.
  destruct (body_parses (body r)); [|done].
  destruct r as [m t b]. simpl.
  destruct m, t; simpl; try done;
    try (by destruct (uploads w !! name));
    try (unfold get_items; by destruct (find_sorted env (items w)));
    try (unfold delete_item; by destruct (findByIdAndDelete env id (items w))).
Qed.

Lemma delete_one_sublist oid coll : delete_one oid coll `sublist_of` coll.
Proof.
  induction coll as [|x l IH]; simpl; [done|].
  destruct (decide (_id x = oid)).
  - by apply sublist_cons.
  - by apply sublist_skip.
Qed.

(** An item is stored exactly when the answer is 201: a 201 carries the
    created item, which is the one appended to the collection; under
    any other answer the collection gains nothing. *)
Theorem created_iff_201 cfg env w r :
  let '(resp, w') := app cfg env w r in
  (status resp = 201%nat →
     resp = mkResponse 201 (P_saved saved_message (created_item cfg env (body r)))
     ∧ items w' = (items w ++ [created_item cfg env (body r)])%list)
  ∧ (status resp ≠ 201%nat → items w' `sublist_of` items w).
Proof.
  rewrite app_route_table. unfold route_table.
  destruct (body_parses (body r)); [|by split].
  destruct r as [m t b]. simpl.
  destruct m, t; simpl; try (by split);
    try (destruct (uploads w !! name); by split);
    try (unfold get_items; destruct (find_sorted env (items w)); by split).
  - destruct (upload_passes env b); [|by split].
    assert (items (post_world env b w) = items w) as Hw.
    { unfold post_world. by destruct (uploaded env b) as [[??]|]. }
    unfold post_items, save, db_call.
    destruct (db_failure env); simpl; [by rewrite Hw|].
    rewrite Hw. split; [|done]. intros _.
    unfold created_item, new_Item, post_ctx, saved_message. simpl.
    by destruct (uploaded env b) as [[??]|].
  - unfold delete_item, findByIdAndDelete, db_call.
    destruct (ObjectId.cast id); [|by split].
    destruct (db_failure env); simpl; [by split|].
    split; [done|]. intros _. apply delete_one_sublist.
Qed.

(** Every 500 is logged once and nothing else is logged: a 500 appends
    one entry to the console, the caught error (the database's, with its
    detail, or the identifier cast's); under any other answer the
    console is unchanged. *)
Theorem logged_iff_500 cfg env w r :
  let '(resp, w') := app cfg env w r in
  (status resp = 500%nat →
     ∃ label e, console w' = (console w ++ [(label, e)])%list
       ∧ ((err_class e = MongoError ∧ db_failure env = Some (err_message e))
          ∨ err_class e = CastError))
  ∧ (status resp ≠ 500%nat → console w' = console w).
Proof.
  rewrite app_route_table. unfold route_table.
  destruct (body_parses (body r)); [|by split].
  destruct r as [m t b]. simpl.
  destruct m, t; simpl; try (by split);
    try (destruct (uploads w !! name); by split).
  - unfold get_items, find_sorted, db_call.
    destruct (db_failure env) as [d|]; simpl; [|by split].
    split; [|done]. intros _. eexists _, _. split; [reflexivity|]. left. done.
  - destruct (upload_passes env b); [|by split].
    assert (console (post_world env b w) = console w) as Hw.
    { unfold post_world. by destruct (uploaded env b) as [[??]|]. }
    unfold post_items, save, db_call.
    destruct (db_failure env) as [d|]; simpl; [|by split].
    rewrite Hw. split; [|done]. intros _. eexists _, _. split; [reflexivity|]. by left.
  - unfold delete_item, findByIdAndDelete, db_call.
    destruct (ObjectId.cast id).
    + destruct (db_failure env) as [d|]; simpl; [|by split].
      split; [|done]. intros _. eexists _, _. split; [reflexivity|]. by left.
    + simpl. split; [|done]. intros _. eexists _, _. split; [reflexivity|]. by right.
Qed.

(** ** Sequences of requests *)

Lemma delete_one_again oid coll :
  NoDup (ids coll) → delete_one oid (delete_one oid coll) = delete_one oid coll.
Proof. intros Hnd. apply delete_one_absent. by apply delete_one_unique. Qed.

Lemma app_delete_items cfg env w id b :
  body_parses b = true →
  db_failure env = None →
  (app cfg env w (mkRequest DELETE (T_api_items_id id) b)).1
  = match ObjectId.cast id with
    | Some _ => deleted_confirmation
    | None => mkResponse 500 (P_error "Failed to delete item")
    end
  ∧ items (app cfg env w (mkRequest DELETE (T_api_items_id id) b)).2
    = match ObjectId.cast id with
      | Some oid => delete_one oid (items w)
      | None => items w
      end
  ∧ uploads (app cfg env w (mkRequest DELETE (T_api_items_id id) b)).2 = uploads w.
Proof.
  intros Hb Hdb. rewrite app_delete_item by done.
  unfold delete_item, findByIdAndDelete, db_call. rewrite Hdb.
  by destruct (ObjectId.cast id).
Qed.

(** Deleting is idempotent on a collection with unique identifiers:
    repeating a DELETE gets the same answer as the first time and leaves
    the collection and the upload directory as the first one left
    them. *)
Theorem delete_twice cfg env1 env2 w id b1 b2 :
  body_parses b1 = true → body_parses b2 = true →
  db_failure env1 = None → db_failure env2 = None →
  NoDup (ids (items w)) →
  let first := app cfg env1 w (mkRequest DELETE (T_api_items_id id) b1) in
  let second := app cfg env2 first.2 (mkRequest DELETE (T_api_items_id id) b2) in
  second.1 = first.1
  ∧ items second.2 = items first.2
  ∧ uploads second.2 = uploads first.2.
Proof.
  intros Hb1 Hb2 Hdb1 Hdb2 Hnd first second. subst second first.
  destruct (app_delete_items cfg env1 w id b1 Hb1 Hdb1) as (Hr1 & Hi1 & Hu1).
  destruct (app_delete_items cfg env2
              (app cfg env1 w (mkRequest DELETE (T_api_items_id id) b1)).2
              id b2 Hb2 Hdb2) as (Hr2 & Hi2 & Hu2).
  rewrite Hr2, Hr1, Hi2, Hi1, Hu2. split_and!; try done.
  destruct (ObjectId.cast id); [|done]. by apply delete_one_again.
Qed.

Lemma delete_one_snoc oid coll x :
  oid ∉ ids coll → _id x = oid → delete_one oid (coll ++ [x]) = coll.
Proof.
  unfold ids. induction coll as [|y l IH]; simpl; intros Hno Hx.
  - by rewrite decide_True.
  - apply not_elem_of_cons in Hno as [Hy Hl].
    rewrite decide_False by done. by rewrite IH.
Qed.

Lemma app_accepted_report cfg env w b :
  body_parses b = true → upload_passes env b = true → db_failure env = None →
  app cfg env w (mkRequest POST T_api_items b)
  = (mkResponse 201 (P_saved saved_message (created_item cfg env b)),
     set_items (items w ++ [created_item cfg env b]) (post_world env b w)).
Proof.
  intros Hb Hu Hdb. rewrite app_post_items, Hb, Hu.
  unfold post_items, save, db_call. rewrite Hdb.
  assert (items (post_world env b w) = items w) as ->.
  { unfold post_world. by destruct (uploaded env b) as [[??]|]. }
  unfold created_item, new_Item, post_ctx. simpl.
  by destruct (uploaded env b) as [[??]|].
Qed.

(** A report followed by the deletion of the identifier it was given
    restores the collection, when that identifier was not in use. *)
Theorem report_then_delete cfg env1 env2 w b id b2 :
  body_parses b = true → upload_passes env1 b = true → db_failure env1 = None →
  body_parses b2 = true → db_failure env2 = None →
  ObjectId.cast id = Some (fresh_id env1) →
  fresh_id env1 ∉ ids (items w) →
  let w1 := (app cfg env1 w (mkRequest POST T_api_items b)).2 in
  items (app cfg env2 w1 (mkRequest DELETE (T_api_items_id id) b2)).2 = items w.
Proof.
  intros Hb Hu Hdb1 Hb2 Hdb2 Hid Hfresh w1.
  destruct (app_delete_items cfg env2 w1 id b2 Hb2 Hdb2) as (_ & -> & _).
  rewrite Hid. subst w1.
  rewrite app_accepted_report by done.
  simpl. by apply delete_one_snoc.
Qed.

Lemma sort_desc_newest_last coll x :
  Forall (fun y => reported_at y < reported_at x) coll →
  sort_desc (coll ++ [x]) = x :: sort_desc coll.
Proof.
  induction 1 as [|y l Hy _ IH]; simpl; [done|].
  rewrite IH. simpl.
  destruct (Z.leb_spec (reported_at x) (reported_at y)); [lia|done].
Qed.

Lemma app_list cfg env w b :
  body_parses b = true → db_failure env = None →
  app cfg env w (mkRequest GET T_api_items b)
  = (mkResponse 200 (P_items (sort_desc (items w))), w).
Proof.
  intros Hb Hdb. rewrite app_get_items by done.
  unfold get_items, find_sorted, db_call. by rewrite Hdb.
Qed.

(** A stored report that is strictly newer than everything in the
    collection comes first in the next listing, followed by the listing
    as it was before. *)
Theorem new_report_listed_first cfg env1 env2 w b b2 :
  body_parses b = true → upload_passes env1 b = true → db_failure env1 = None →
  body_parses b2 = true → db_failure env2 = None →
  Forall (fun y => reported_at y < now_item env1) (items w) →
  let w1 := (app cfg env1 w (mkRequest POST T_api_items b)).2 in
  ∃ before,
    (app cfg env2 w (mkRequest GET T_api_items b2)).1 = mkResponse 200 (P_items before)
    ∧ (app cfg env2 w1 (mkRequest GET T_api_items b2)).1
      = mkResponse 200 (P_items (created_item cfg env1 b :: before)).
Proof.
  intros Hb Hu Hdb1 Hb2 Hdb2 Hold w1. exists (sort_desc (items w)).
  rewrite !app_list by done. split; [done|]. simpl.
  subst w1. rewrite app_accepted_report by done. simpl.
  by rewrite sort_desc_newest_last.
Qed.

Lemma delete_one_insert_desc_same oid y l :
  _id y = oid → oid ∉ ids l → delete_one oid (insert_desc y l) = l.
Proof.
  unfold ids. intros Hy. induction l as [|z l IH]; simpl; intros Hno.
  - by rewrite decide_True.
  - apply not_elem_of_cons in Hno as [Hz Hl].
    destruct (reported_at z <=? reported_at y); simpl.
    + by rewrite decide_True.
    + rewrite decide_False by done. by rewrite IH.
Qed.

Lemma delete_one_insert_desc_other oid y l :
  _id y ≠ oid → newest_first l →
  delete_one oid (insert_desc y l) = insert_desc y (delete_one oid l).
Proof.
  unfold newest_first. intros Hy. induction 1 as [|z l Hl IH Hz]; simpl.
  - by rewrite decide_False.
  - destruct (Z.leb_spec (reported_at z) (reported_at y)) as [Hle|Hlt]; simpl.
    + rewrite decide_False by done.
      destruct (decide (_id z = oid)) as [Heq|Hne]; simpl.
      * destruct Hz as [|z' l' Hz' _]; simpl; [done|].
        destruct (Z.leb_spec (reported_at z') (reported_at y)); [done|lia].
      * destruct (Z.leb_spec (reported_at z) (reported_at y)); [done|lia].
    + destruct (decide (_id z = oid)) as [Heq|Hne]; simpl; [done|].
      destruct (Z.leb_spec (reported_at z) (reported_at y)); [lia|].
      by rewrite IH.
Qed.

Lemma sort_desc_delete_one oid coll :
  NoDup (ids coll) → sort_desc (delete_one oid coll) = delete_one oid (sort_desc coll).
Proof.
  unfold ids. induction coll as [|x l IH]; simpl; [done|].
  rewrite NoDup_cons. intros [Hx Hnd].
  destruct (decide (_id x = oid)) as [Heq|Hne].
  - symmetry. apply delete_one_insert_desc_same; [done|].
    unfold ids. rewrite sort_desc_perm. by rewrite <- Heq.
  - simpl. rewrite IH by done. symmetry.
    apply delete_one_insert_desc_other; [done|apply sort_desc_sorted].
Qed.

(** After a deletion the listing is the listing as it was with that
    record taken out, nothing else moved; with unique identifiers no
    listed item carries the deleted identifier. *)
Theorem deleted_item_not_listed cfg env1 env2 w id oid b1 b2 :
  body_parses b1 = true → db_failure env1 = None →
  body_parses b2 = true → db_failure env2 = None →
  ObjectId.cast id = Some oid →
  NoDup (ids (items w)) →
  let w1 := (app cfg env1 w (mkRequest DELETE (T_api_items_id id) b1)).2 in
  ∃ before,
    (app cfg env2 w (mkRequest GET T_api_items b2)).1 = mkResponse 200 (P_items before)
    ∧ (app cfg env2 w1 (mkRequest GET T_api_items b2)).1
      = mkResponse 200 (P_items (delete_one oid before))
    ∧ oid ∉ ids (delete_one oid before).
Proof.
  intros Hb1 Hdb1 Hb2 Hdb2 Hid Hnd w1. exists (sort_desc (items w)).
  rewrite !app_list by done. split; [done|]. simpl.
  subst w1. destruct (app_delete_items cfg env1 w id b1 Hb1 Hdb1) as (_ & -> & _).
  rewrite Hid. rewrite sort_desc_delete_one by done. split; [done|].
  apply delete_one_unique. unfold ids. by rewrite sort_desc_perm.
Qed.

Lemma serve_accepted_reports cfg trace :
  ∀ w, Forall accepted_report trace →
       items (serve cfg trace w).2
       = (items w ++ map (fun step => created_item cfg step.1 (body step.2)) trace)%list.
Proof.
  induction trace as [|[env r] trace IH]; intros w Hall.
  - simpl. by rewrite app_nil_r.
  - apply Forall_cons in Hall as [(Hm & Ht & Hb & Hu & Hdb) Hall].
    rewrite serve_cons_world, IH by done.
    destruct r as [m t b]. simpl in *. subst m t.
    rewrite app_accepted_report by done. simpl.
    by rewrite <- app_assoc.
Qed.

(** N stored reports served one after the other from the empty
    collection leave exactly N records, in the order of the requests,
    each the record of its request; when the generated identifiers are
    pairwise distinct so are the identifiers in the collection. *)
Theorem n_reports_n_records cfg trace :
  Forall accepted_report trace →
  let coll := items (serve cfg trace empty_world).2 in
  coll = map (fun step => created_item cfg step.1 (body step.2)) trace
  ∧ length coll = length trace
  ∧ (NoDup (map (fun step => fresh_id step.1) trace) → NoDup (ids coll)).
Proof.
  intros Hall coll. subst coll. rewrite serve_accepted_reports by done. simpl.
  split; [done|]. split; [by rewrite length_map|].
  unfold ids. rewrite map_map. done.
Qed.

(** ** The earlier variant against the deployed one *)

Lemma js_or_configured s d : s ≠ "" → js_or (Some s) d = s.
Proof. intros Hs. unfold js_or. by rewrite decide_False. Qed.

(** On every request except those for /api/health, which only the
    deployed server has, the earlier variant answers with the same
    status, writes the same files and leaves the same collection up to
    the image links; with [RENDER_EXTERNAL_URL] set to the address the
    earlier variant has hard-wired, the collections are equal.  In
    particular the DELETE route, registered after the error handler in
    the earlier variant, is served all the same. *)
Theorem earlier_variant_agrees cfg env w r :
  target r ≠ T_api_health →
  let old := Earlier.app cfg env w r in
  let new := app cfg env w r in
  status old.1 = status new.1
  ∧ uploads old.2 = uploads new.2
  ∧ map without_image_url (items old.2) = map without_image_url (items new.2)
  ∧ (RENDER_EXTERNAL_URL cfg = Some Earlier.local_base_url → items old.2 = items new.2).
Proof.
  intros Ht. simpl. unfold Earlier.app, app.
  destruct r as [m t b]. simpl in Ht.
  destruct b as [|[obj|]|fields [file|]], m, t; try done; simpl;
    unfold responding, upload_single, serve_static; simpl;
    try (by destruct (uploads w !! name));
    try (unfold get_items; by destruct (find_sorted env (items w)));
    try (unfold Earlier.delete_item, delete_item;
         by destruct (findByIdAndDelete env id (items w)));
    try (destruct (decide (fieldname file = "image")); [|done];
         destruct (disk_failure env); [done|]; simpl);
    unfold Earlier.post_items, post_items, save, db_call;
    (destruct (db_failure env); simpl; [done|]);
    rewrite !map_app; split_and!; try done;
    intros Hcfg; rewrite Hcfg; by rewrite js_or_configured.
Qed.

(** ** The further properties on the worked scenario *)

(** The health check while the database is down. *)
Lemma health_ignores_failures_witness :
  app Sample.cfg Sample.env_db_down Sample.w_abc (mkRequest GET T_api_health NoBody)
  = (mkResponse 200 (P_status "ok"), Sample.w_abc)
  ∧ app Sample.cfg Sample.env_db_down Sample.w_abc (mkRequest GET T_root NoBody)
    = (mkResponse 200 (P_text "🚀 Lost & Found API is running successfully!"),
       Sample.w_abc).
Proof.
  apply (health_ignores_failures Sample.cfg Sample.env_db_down Sample.w_abc NoBody).
  reflexivity.
Defined.


(** A wallet photo is uploaded, then fetched while the database is down. *)
Lemma uploaded_file_is_served_witness :
  let w1 := (app Sample.cfg (Sample.env 4 Sample.id_D) Sample.w_abc
               (post_with_file (Sample.form "Wallet") Sample.photo)).2 in
  app Sample.cfg Sample.env_db_down w1
    (get_upload (uniqueName (Sample.env 4 Sample.id_D) Sample.photo) NoBody)
  = (mkResponse 200 (P_file (content Sample.photo)), w1).
Proof.
  apply (uploaded_file_is_served Sample.cfg (Sample.env 4 Sample.id_D)
           Sample.env_db_down Sample.w_abc (Sample.form "Wallet") Sample.photo NoBody);
    reflexivity.
Defined.

Example uploaded_photo_name :
  uniqueName (Sample.env 4 Sample.id_D) Sample.photo = "4.JPG".
Proof. vm_compute. reflexivity. Qed.

(** The database is down while a report with a photo arrives. *)
Lemma failed_save_keeps_upload_witness :
  let '(resp, w') :=
    app Sample.cfg Sample.env_db_down Sample.w_abc
      (post_with_file (Sample.form "Wallet") Sample.photo) in
  resp = mkResponse 500 (P_error "Failed to save item")
  ∧ items w' = items Sample.w_abc
  ∧ uploads w'
    = <[uniqueName Sample.env_db_down Sample.photo := content Sample.photo]>
        (uploads Sample.w_abc).
Proof.
  apply (failed_save_keeps_upload Sample.cfg Sample.env_db_down Sample.w_abc
           (Sample.form "Wallet") Sample.photo
           "MongoNetworkError: connect ECONNREFUSED 10.0.0.7:27017");
    reflexivity.
Defined.

(** wallet.front.JPG and keys.JPG, both uploaded at clock reading 4. *)
Lemma same_instant_uploads_collide_witness :
  let w1 := (app Sample.cfg (Sample.env 4 Sample.id_D) Sample.w_abc
               (post_with_file (Sample.form "Wallet") Sample.photo)).2 in
  let w2 := (app Sample.cfg Scenario.env_same_instant w1
               (post_with_file (Sample.form "Keys") Scenario.photo2)).2 in
  uploads w2
  = <[uniqueName (Sample.env 4 Sample.id_D) Sample.photo := content Scenario.photo2]>
      (uploads Sample.w_abc)
  ∧ ∃ item1 item2,
      items w2 = (items Sample.w_abc ++ [item1; item2])%list
      ∧ image_url item1 = image_url item2
      ∧ image_url item1
        = Some (baseUrl Sample.cfg ++ "/uploads/"
                ++ uniqueName (Sample.env 4 Sample.id_D) Sample.photo).
Proof.
  apply (same_instant_uploads_collide Sample.cfg (Sample.env 4 Sample.id_D)
           Scenario.env_same_instant Sample.w_abc (Sample.form "Wallet")
           (Sample.form "Keys") Sample.photo Scenario.photo2);
    reflexivity.
Defined.

(** B is deleted twice. *)
Lemma delete_twice_witness :
  let first := app Sample.cfg (Sample.env 4 Sample.id_D) Sample.w_abc
                 (mkRequest DELETE (T_api_items_id Sample.id_B) NoBody) in
  let second := app Sample.cfg (Sample.env 5 Sample.id_D) first.2
                  (mkRequest DELETE (T_api_items_id Sample.id_B) NoBody) in
  second.1 = first.1
  ∧ items second.2 = items first.2
  ∧ uploads second.2 = uploads first.2.
Proof.
  apply (delete_twice Sample.cfg (Sample.env 4 Sample.id_D) (Sample.env 5 Sample.id_D)
           Sample.w_abc Sample.id_B NoBody NoBody); try reflexivity.
  apply (bool_decide_unpack _). vm_compute. exact I.
Defined.

(** D is reported, then deleted by its identifier. *)
Lemma report_then_delete_witness :
  let w1 := (app Sample.cfg (Sample.env 4 Sample.id_D) Sample.w_abc
               (mkRequest POST T_api_items (MultipartBody (Sample.form "D") None))).2 in
  items (app Sample.cfg (Sample.env 5 Sample.id_D) w1
           (mkRequest DELETE (T_api_items_id Sample.id_D) NoBody)).2
  = items Sample.w_abc.
Proof.
  apply (report_then_delete Sample.cfg (Sample.env 4 Sample.id_D)
           (Sample.env 5 Sample.id_D) Sample.w_abc
           (MultipartBody (Sample.form "D") None) Sample.id_D NoBody);
    try reflexivity.
  apply (bool_decide_unpack _). vm_compute. exact I.
Defined.

(** D is reported at clock reading 4, after A, B, C at 1, 2, 3. *)
Lemma new_report_listed_first_witness :
  let w1 := (app Sample.cfg (Sample.env 4 Sample.id_D) Sample.w_abc
               (mkRequest POST T_api_items (MultipartBody (Sample.form "D") None))).2 in
  ∃ before,
    (app Sample.cfg (Sample.env 5 Sample.id_D) Sample.w_abc
       (mkRequest GET T_api_items NoBody)).1 = mkResponse 200 (P_items before)
    ∧ (app Sample.cfg (Sample.env 5 Sample.id_D) w1
         (mkRequest GET T_api_items NoBody)).1
      = mkResponse 200
          (P_items (created_item Sample.cfg (Sample.env 4 Sample.id_D)
                      (MultipartBody (Sample.form "D") None) :: before)).
Proof.
  apply (new_report_listed_first Sample.cfg (Sample.env 4 Sample.id_D)
           (Sample.env 5 Sample.id_D) Sample.w_abc
           (MultipartBody (Sample.form "D") None) NoBody);
    try reflexivity.
  apply (bool_decide_unpack _). vm_compute. exact I.
Defined.

(** B is deleted from [A; B; C], then the items are listed. *)
Lemma deleted_item_not_listed_witness :
  let w1 := (app Sample.cfg (Sample.env 4 Sample.id_D) Sample.w_abc
               (mkRequest DELETE (T_api_items_id Sample.id_B) NoBody)).2 in
  ∃ before,
    (app Sample.cfg (Sample.env 5 Sample.id_D) Sample.w_abc
       (mkRequest GET T_api_items NoBody)).1 = mkResponse 200 (P_items before)
    ∧ (app Sample.cfg (Sample.env 5 Sample.id_D) w1
         (mkRequest GET T_api_items NoBody)).1
      = mkResponse 200 (P_items (delete_one (Sample.oid Sample.id_B) before))
    ∧ Sample.oid Sample.id_B ∉ ids (delete_one (Sample.oid Sample.id_B) before).
Proof.
  apply (deleted_item_not_listed Sample.cfg (Sample.env 4 Sample.id_D)
           (Sample.env 5 Sample.id_D) Sample.w_abc Sample.id_B
           (Sample.oid Sample.id_B) NoBody NoBody);
    try reflexivity.
  apply (bool_decide_unpack _). vm_compute. exact I.
Defined.

Example list_after_delete_B :
  (app Sample.cfg (Sample.env 5 Sample.id_D)
     (app Sample.cfg (Sample.env 4 Sample.id_D) Sample.w_abc
        (Sample.delete Sample.id_B)).2 Sample.list_all).1
  = mkResponse 200 (P_items [Sample.item_C; Sample.item_A]).
Proof. vm_compute. reflexivity. Qed.

(** The three reports A, B, C. *)
Lemma n_reports_n_records_witness :
  let coll := items (serve Sample.cfg Sample.trace_abc empty_world).2 in
  coll = map (fun step => created_item Sample.cfg step.1 (body step.2)) Sample.trace_abc
  ∧ length coll = length Sample.trace_abc
  ∧ (NoDup (map (fun step => fresh_id step.1) Sample.trace_abc) → NoDup (ids coll)).
Proof.
  apply (n_reports_n_records Sample.cfg Sample.trace_abc).
  repeat constructor.
Defined.

(** The deployed server configured with the earlier variant's address,
    on a report with a photo. *)
Lemma earlier_variant_agrees_witness :
  let cfg := mkConfig (Some Earlier.local_base_url) in
  let old := Earlier.app cfg (Sample.env 4 Sample.id_D) Sample.w_abc
               Sample.report_with_photo in
  let new := app cfg (Sample.env 4 Sample.id_D) Sample.w_abc Sample.report_with_photo in
  status old.1 = status new.1
  ∧ uploads old.2 = uploads new.2
  ∧ map without_image_url (items old.2) = map without_image_url (items new.2)
  ∧ (RENDER_EXTERNAL_URL cfg = Some Earlier.local_base_url → items old.2 = items new.2).
Proof.
  apply (earlier_variant_agrees (mkConfig (Some Earlier.local_base_url))
           (Sample.env 4 Sample.id_D) Sample.w_abc Sample.report_with_photo).
  discriminate.
Defined.

